(** * Doninsta: the Instagram reel downloader bot (src/main.py)

    A shallow embedding of the request flow of [main.py]: the link
    extractor [extract_shortcode], the session dictionary
    [user_sessions], the handlers [handle_reel_url], [process_download]
    and [restart_flow], and [cleanup_directory].

    Text is a byte string: a Python [str] is held as its UTF-8 encoding
    in a Rocq [string], a Python [bytes] as the same type.  Case mapping
    is that of the ASCII range, where every literal the handlers test
    lives. *)

From Stdlib Require Import ZArith Ascii String DecimalString List Bool Lia.
From stdpp Require Import base option list gmap strings fin_maps.

Local Open Scope string_scope.
Local Open Scope Z_scope.

(** ** Python strings *)

Module Py.

Definition bytes := string.

(** [s.startswith(p)] *)
Fixpoint startswith (s p : string) {struct p} : bool :=
  match p with
  | EmptyString => true
  | String a p' =>
      match s with
      | EmptyString => false
      | String b s' => Ascii.eqb a b && startswith s' p'
      end
  end.

(** [sub in s] *)
Fixpoint str_in (sub s : string) : bool :=
  match s with
  | EmptyString => startswith s sub
  | String _ r => startswith s sub || str_in sub r
  end.

(** [s.endswith(suf)]: some suffix of [s] is [suf]. *)
Fixpoint endswith (s suf : string) : bool :=
  String.eqb s suf ||
  match s with
  | EmptyString => false
  | String _ r => endswith r suf
  end.

(** [s.endswith((a, b, ...))] with a tuple argument. *)
Definition endswith_any (s : string) (sufs : list string) : bool :=
  existsb (endswith s) sufs.

Definition char_in (c : ascii) (chars : string) : bool :=
  existsb (Ascii.eqb c) (list_ascii_of_string chars).

(** [s.lstrip(chars)], [s.rstrip(chars)], [s.strip(chars)] *)
Fixpoint lstrip (chars s : string) : string :=
  match s with
  | EmptyString => EmptyString
  | String c r => if char_in c chars then lstrip chars r else s
  end.

Fixpoint rstrip (chars s : string) : string :=
  match s with
  | EmptyString => EmptyString
  | String c r =>
      let r' := rstrip chars r in
      if String.eqb r' EmptyString && char_in c chars
      then EmptyString else String c r'
  end.

Definition strip (chars s : string) : string := rstrip chars (lstrip chars s).

(** White space as [str.strip()] without an argument removes it and
    [str.split()] separates on it, in UTF-8: the characters 9 to 13,
    28 to 32, U+0085, U+00A0, U+1680, U+2000 to U+200A, U+2028,
    U+2029, U+202F, U+205F and U+3000.  [space_len s] is the number of
    bytes of the white-space character [s] starts with, or 0. *)
Definition byte_is (n : nat) (c : ascii) : bool := Nat.eqb (nat_of_ascii c) n.

Definition between (lo hi : nat) (c : ascii) : bool :=
  let n := nat_of_ascii c in ((lo <=? n) && (n <=? hi))%nat.

Definition space_len (s : string) : nat :=
  match s with
  | EmptyString => 0
  | String a r =>
      if between 9 13 a || between 28 32 a then 1
      else
        match r with
        | EmptyString => 0
        | String b r1 =>
            if byte_is 194 a && (byte_is 133 b || byte_is 160 b) then 2
            else
              match r1 with
              | EmptyString => 0
              | String c _ =>
                  if (byte_is 225 a && byte_is 154 b && byte_is 128 c)
                     || (byte_is 226 a && byte_is 128 b
                         && (between 128 138 c || byte_is 168 c
                             || byte_is 169 c || byte_is 175 c))
                     || (byte_is 226 a && byte_is 129 b && byte_is 159 c)
                     || (byte_is 227 a && byte_is 128 b && byte_is 128 c)
                  then 3 else 0
              end
        end
  end.

(** [s.lstrip()] *)
Fixpoint lstrip_space (s : string) : string :=
  match s with
  | EmptyString => EmptyString
  | String _ r =>
      match space_len s with
      | 1 => lstrip_space r
      | 2 => match r with
             | String _ r1 => lstrip_space r1
             | _ => s
             end
      | 3 => match r with
             | String _ (String _ r2) => lstrip_space r2
             | _ => s
             end
      | _ => s
      end
  end%nat.

(** [s.isspace()], or [s] is empty. *)
Fixpoint all_space (s : string) : bool :=
  match s with
  | EmptyString => true
  | String _ r =>
      match space_len s with
      | 1 => all_space r
      | 2 => match r with
             | String _ r1 => all_space r1
             | _ => false
             end
      | 3 => match r with
             | String _ (String _ r2) => all_space r2
             | _ => false
             end
      | _ => false
      end
  end%nat.

(** [s.rstrip()]: what follows is cut where only white space is left. *)
Fixpoint rstrip_space (s : string) : string :=
  match s with
  | EmptyString => EmptyString
  | String c r => if all_space s then EmptyString else String c (rstrip_space r)
  end.

(** [s.strip()] *)
Definition strip_space (s : string) : string := rstrip_space (lstrip_space s).

(** [s.lower()] *)
Definition lower_char (c : ascii) : ascii :=
  let n := nat_of_ascii c in
  if ((65 <=? n) && (n <=? 90))%nat then ascii_of_nat (n + 32) else c.

Fixpoint lower (s : string) : string :=
  match s with
  | EmptyString => EmptyString
  | String c r => String (lower_char c) (lower r)
  end.

(** [s.split(sep)] for a separator that is not empty.  [skip] counts
    the characters of a separator just matched that are still to be
    passed over; [cur] is the piece being read. *)
Fixpoint split_from (sep : string) (skip : nat) (cur s : string) : list string :=
  match s with
  | EmptyString => [cur]
  | String c r =>
      match skip with
      | S k => split_from sep k cur r
      | O =>
          if startswith s sep
          then cur :: split_from sep (String.length sep - 1) EmptyString r
          else split_from sep O (cur ++ String c EmptyString) r
      end
  end.

Definition split (sep s : string) : list string := split_from sep O EmptyString s.

(** [s.split(sep, 1)] as the pair (before, after) when [sep] occurs. *)
Fixpoint partition (sep : ascii) (s : string) : string * option string :=
  match s with
  | EmptyString => (EmptyString, None)
  | String c r =>
      if Ascii.eqb c sep then (EmptyString, Some r)
      else let '(a, b) := partition sep r in (String c a, b)
  end.

(** [s.split()[0]] of a string that does not start with white space:
    the characters up to the first white space. *)
Fixpoint first_word (s : string) : string :=
  match s with
  | EmptyString => EmptyString
  | String c r =>
      if (0 <? space_len s)%nat then EmptyString else String c (first_word r)
  end.

(** [s.replace(c, "")] for each character [c] of [chars]. *)
Fixpoint remove_chars (chars s : string) : string :=
  match s with
  | EmptyString => EmptyString
  | String c r =>
      if char_in c chars then remove_chars chars r else String c (remove_chars chars r)
  end.

(** [s[n:]] *)
Fixpoint drop (n : nat) (s : string) : string :=
  match n, s with
  | O, _ => s
  | S k, String _ r => drop k r
  | S _, EmptyString => EmptyString
  end.

(** [bytes.decode()]: strict UTF-8.  A text being held as its UTF-8
    bytes, decoding returns the bytes when they are well formed. *)
Definition cont (c : ascii) : bool :=
  let n := nat_of_ascii c in ((128 <=? n) && (n <=? 191))%nat.

Fixpoint utf8_valid (s : string) : bool :=
  match s with
  | EmptyString => true
  | String a r =>
      if between 0 127 a then utf8_valid r
      else if between 194 223 a then
        match r with
        | String b r1 => cont b && utf8_valid r1
        | _ => false
        end
      else if between 224 239 a then
        match r with
        | String b (String c r2) =>
            (if between 224 224 a then between 160 191 b
             else if between 237 237 a then between 128 159 b
             else cont b)
            && cont c && utf8_valid r2
        | _ => false
        end
      else if between 240 244 a then
        match r with
        | String b (String c (String d r3)) =>
            (if between 240 240 a then between 144 191 b
             else if between 244 244 a then between 128 143 b
             else cont b)
            && cont c && cont d && utf8_valid r3
        | _ => false
        end
      else false
  end.

End Py.

(** ** Exceptions *)

(** The exception classes the program raises, catches or lets through.
    Each carries [str(e)]; [StopIteration] is raised without arguments,
    so its text is empty. *)
Inductive exn : Type :=
  | BadResponseException (text : string)
  | CalledProcessError (returncode : Z) (stderr : Py.bytes) (text : string)
  | FileNotFoundError (text : string)
  | StopIteration
  | ValueError (text : string)
  | IndexError (text : string)
  | KeyError (text : string)
  | UnicodeDecodeError (text : string)
  | OSError (text : string)
  | Exception (text : string)
  | BaseException (text : string).

(** [str(e)] *)
Definition str (e : exn) : string :=
  match e with
  | BadResponseException t | CalledProcessError _ _ t | FileNotFoundError t
  | ValueError t | IndexError t | KeyError t | UnicodeDecodeError t
  | OSError t | Exception t | BaseException t => t
  | StopIteration => EmptyString
  end.

(** [isinstance(e, Exception)]: everything but the exceptions that
    derive from [BaseException] alone (KeyboardInterrupt, SystemExit). *)
Definition is_Exception (e : exn) : bool :=
  match e with
  | BaseException _ => false
  | _ => true
  end.

Inductive result (A : Type) : Type :=
  | Ok (a : A)
  | Raise (e : exn).
Arguments Ok {A} a.
Arguments Raise {A} e.

Definition rbind {A B} (m : result A) (k : A -> result B) : result B :=
  match m with
  | Ok a => k a
  | Raise e => Raise e
  end.

Declare Scope py_scope.
Delimit Scope py_scope with py.
Notation "x <~ m ; k" := (rbind m (fun x => k))
  (at level 20, m at level 100, k at level 200, only parsing) : py_scope.
Notation "' p <~ m ; k" := (rbind m (fun p => k))
  (at level 20, p pattern, m at level 100, k at level 200, only parsing) : py_scope.
Local Open Scope py_scope.

(** [l[i]] *)
Definition getitem (l : list string) (i : nat) : result string :=
  match l !! i with
  | Some x => Ok x
  | None => Raise (IndexError "list index out of range")
  end.

(** ** urllib.parse.urlparse

    The library function as CPython has it, for the components the
    extractor reads.  The validation of a bracketed host and the NFKC
    check of a host outside ASCII are left out: each can only replace a
    result by [ValueError]. *)

Module urllib.

Record ParseResult : Type := {
  scheme : string;
  netloc : string;
  path : string;
  params : string;
  query : string;
  fragment : string
}.

Definition scheme_char (c : ascii) : bool :=
  Py.between 97 122 c || Py.between 65 90 c || Py.between 48 57 c
  || Py.char_in c "+-.".

Definition is_alpha (c : ascii) : bool :=
  Py.between 97 122 c || Py.between 65 90 c.

Definition uses_params : list string :=
  [""; "ftp"; "hdl"; "prospero"; "http"; "imap"; "https"; "shttp"; "rtsp";
   "rtspu"; "sip"; "sips"; "mms"; "sftp"; "tel"].

(** The characters [urlsplit] strips on the left: 0 to 32. *)
Definition c0_control_or_space (c : ascii) : bool := Py.between 0 32 c.

Fixpoint lstrip_c0 (s : string) : string :=
  match s with
  | EmptyString => EmptyString
  | String c r => if c0_control_or_space c then lstrip_c0 r else s
  end.

Definition unsafe_url_bytes : string :=
  String (ascii_of_nat 9) (String (ascii_of_nat 13) (String (ascii_of_nat 10) EmptyString)).

(** [url[:i]] and [url[i+1:]] at the first colon, when what stands
    before it is a scheme. *)
Definition split_scheme (url : string) : string * string :=
  match Py.partition ":" url with
  | (String c0 before, Some rest) =>
      if is_alpha c0 && forallb scheme_char (list_ascii_of_string before)
      then (Py.lower (String c0 before), rest)
      else (EmptyString, url)
  | _ => (EmptyString, url)
  end.

(** [_splitnetloc(url, 2)]: the domain runs to the first of [/?#]. *)
Fixpoint splitnetloc (s : string) : string * string :=
  match s with
  | EmptyString => (EmptyString, EmptyString)
  | String c r =>
      if Py.char_in c "/?#" then (EmptyString, s)
      else let '(d, rest) := splitnetloc r in (String c d, rest)
  end.

(** The link before its last [/], and from that [/] on. *)
Fixpoint last_segment_from (s : string) : string * string :=
  match s with
  | EmptyString => (EmptyString, EmptyString)
  | String c r =>
      let '(a, b) := last_segment_from r in
      if Py.str_in "/" r then (String c a, b)
      else (EmptyString, s)
  end.

Definition splitparams (url : string) : string * string :=
  if Py.str_in "/" url then
    let '(dirs, last) := last_segment_from url in
    match Py.partition ";" last with
    | (a, Some b) => (dirs ++ a, b)
    | (_, None) => (url, EmptyString)
    end
  else
    match Py.partition ";" url with
    | (a, Some b) => (a, b)
    | (_, None) => (String.substring 0 (String.length url - 1) url, url)
    end.

Definition urlsplit (url : string) : result (string * string * string * string * string) :=
  let url := lstrip_c0 url in
  let url := Py.remove_chars unsafe_url_bytes url in
  let '(scheme, url) := split_scheme url in
  let '(netloc, url) :=
    if Py.startswith url "//" then splitnetloc (Py.drop 2 url)
    else (EmptyString, url) in
  if (Py.str_in "[" netloc && negb (Py.str_in "]" netloc))
     || (Py.str_in "]" netloc && negb (Py.str_in "[" netloc))
  then Raise (ValueError "Invalid IPv6 URL")
  else
    let '(url, fragment) :=
      match Py.partition "#" url with
      | (a, Some b) => (a, b)
      | (a, None) => (a, EmptyString)
      end in
    let '(url, query) :=
      match Py.partition "?" url with
      | (a, Some b) => (a, b)
      | (a, None) => (a, EmptyString)
      end in
    Ok (scheme, netloc, url, query, fragment).

Definition urlparse (url : string) : result ParseResult :=
  '(scheme, netloc, url, query, fragment) <~ urlsplit url ;
  let '(url, params) :=
    if existsb (String.eqb scheme) uses_params && Py.str_in ";" url
    then splitparams url else (url, EmptyString) in
  Ok {| scheme := scheme; netloc := netloc; path := url; params := params;
        query := query; fragment := fragment |}.

End urllib.

(** ** The link extractor (main.py, lines 50 to 63) *)

(** Lines 56 to 63: the identifier in the path of the parsed link. *)
Definition shortcode_of_path (parsed_path : string) : result string :=
  let path := Py.strip "/" parsed_path in
  if Py.str_in "/reel/" path then
    after <~ getitem (Py.split "/reel/" path) 1 ;
    getitem (Py.split "/" after) 0
  else if Py.str_in "/p/" path then
    after <~ getitem (Py.split "/p/" path) 1 ;
    getitem (Py.split "/" after) 0
  else if (length (Py.split "/" path) =? 1)%nat && negb (String.eqb path "") then
    Ok path
  else Raise (ValueError "Couldn't extract reel shortcode").

Definition extract_shortcode (url : string) : result string :=
  parsed <~ urllib.urlparse url ;
  if negb (Py.endswith_any (urllib.netloc parsed) ["instagram.com"; "www.instagram.com"])
  then Raise (ValueError "Invalid Instagram URL")
  else shortcode_of_path (urllib.path parsed).

(** ** The world the handlers run in *)

(** A value of [user_sessions]: the dictionary with the keys ['url']
    and ['shortcode'] stored at lines 100 to 103. *)
Record session : Type := { url : string; shortcode : string }.

(** What the handlers read of a telebot message: [message.chat.id] and
    [message.text]. *)
Record message : Type := { chat_id : Z; text : string }.

(** An entry of [DOWNLOAD_DIR]: whether [os.path.isfile] holds of it
    and whether [os.unlink] on it succeeds. *)
Record file : Type := { isfile : bool; removable : bool }.

Inductive reply_markup : Type :=
  | NoMarkup
  | ReplyKeyboardMarkup (one_time_keyboard resize_keyboard : bool) (buttons : list string)
  | ReplyKeyboardRemove.

(** The calls the program makes to its collaborators: the chat
    transport ([bot]), the retrieval client ([instaloader]) and the
    conversion process ([ffmpeg] through [subprocess.run]). *)
Inductive call : Type :=
  | send_message (chat : Z) (body : string) (parse_mode : option string)
                 (markup : reply_markup)
  | reply_to (m : message) (body : string)
  | send_chat_action (chat : Z) (action : string)
  | send_video (chat : Z) (file_path caption : string) (supports_streaming : bool)
  | send_audio (chat : Z) (file_path title : string)
  | Post_from_shortcode (code : string)
  | download_post (code target : string)
  | subprocess_run (args : list string).

(** The errors whose text the Python library composes. *)
Inductive lib_error : Type :=
  | ENOENT (path : string)
  | EISDIR (path : string)
  | EACCES (path : string)
  | NonZeroExit (cmd : list string) (returncode : Z)
  | InvalidUtf8 (b : Py.bytes).

(** How [subprocess.run] finds the process it started. *)
Inductive run_outcome : Type :=
  | NotStarted (e : exn)
  | Exited (returncode : Z) (stderr : Py.bytes) (files : gmap string file).

(** The collaborators.  [outcome c] is the exception that call [c] to
    the transport or to the client raises, if any; [downloaded] is the
    state the client leaves [DOWNLOAD_DIR] in; [ffmpeg] is what
    becomes of the conversion process; [strerror] is the text of a
    library error. *)
Record env : Type := {
  outcome : call -> option exn;
  downloaded : string -> gmap string file -> gmap string file;
  ffmpeg : list string -> gmap string file -> run_outcome;
  strerror : lib_error -> string
}.

Record world : Type := {
  user_sessions : gmap Z session;
  downloads : gmap string file;
  logged : list string;
  calls : list call
}.

Definition DOWNLOAD_DIR : string := "downloads".

(** ** The monad of a handler: state and exceptions *)

Definition M (A : Type) : Type := world -> result A * world.

Definition ret {A} (a : A) : M A := fun w => (Ok a, w).

Definition bind {A B} (m : M A) (k : A -> M B) : M B :=
  fun w =>
    match m w with
    | (Ok a, w') => k a w'
    | (Raise e, w') => (Raise e, w')
    end.

Definition raise {A} (e : exn) : M A := fun w => (Raise e, w).

Definition lift {A} (r : result A) : M A := fun w => (r, w).

Notation "x <- m ; k" := (bind m (fun x => k))
  (at level 20, m at level 100, k at level 200, only parsing) : py_scope.
Notation "m ;; k" := (bind m (fun _ => k))
  (at level 100, k at level 200, only parsing, right associativity) : py_scope.

(** [try: body  except ...: ...]: [handler e] is the clause that
    catches [e], if one does. *)
Definition try_except {A} (body : M A) (handler : exn -> option (M A)) : M A :=
  fun w =>
    match body w with
    | (Ok a, w') => (Ok a, w')
    | (Raise e, w') =>
        match handler e with
        | Some h => h w'
        | None => (Raise e, w')
        end
    end.

(** [try: body  finally: final]: [final] runs on every exit, and an
    exception of its own replaces the outcome of [body]. *)
Definition try_finally {A} (body : M A) (final : M unit) : M A :=
  fun w =>
    match body w with
    | (r, w') =>
        match final w' with
        | (Ok _, w'') => (r, w'')
        | (Raise e, w'') => (Raise e, w'')
        end
    end.

(** [except Exception as e: h e] *)
Definition except_Exception {A} (h : exn -> M A) (e : exn) : option (M A) :=
  if is_Exception e then Some (h e) else None.

(** *** State *)

Definition get_sessions : M (gmap Z session) := fun w => (Ok (user_sessions w), w).

Definition set_sessions (s : gmap Z session) : M unit :=
  fun w => (Ok tt, {| user_sessions := s; downloads := downloads w;
                      logged := logged w; calls := calls w |}).

Definition get_downloads : M (gmap string file) := fun w => (Ok (downloads w), w).

Definition set_downloads (d : gmap string file) : M unit :=
  fun w => (Ok tt, {| user_sessions := user_sessions w; downloads := d;
                      logged := logged w; calls := calls w |}).

(** [logger.error(line)] *)
Definition logger_error (line : string) : M unit :=
  fun w => (Ok tt, {| user_sessions := user_sessions w; downloads := downloads w;
                      logged := logged w ++ [line]; calls := calls w |}).

(** A call to a collaborator is recorded. *)
Definition record (c : call) : M unit :=
  fun w => (Ok tt, {| user_sessions := user_sessions w; downloads := downloads w;
                      logged := logged w; calls := calls w ++ [c] |}).

(** A call to the transport or to the client: recorded, then it
    returns or raises as the collaborator decides. *)
Definition invoke (E : env) (c : call) : M unit :=
  fun w =>
    let w' := {| user_sessions := user_sessions w; downloads := downloads w;
                 logged := logged w; calls := calls w ++ [c] |} in
    match outcome E c with
    | None => (Ok tt, w')
    | Some e => (Raise e, w')
    end.

(** *** The file system under [DOWNLOAD_DIR] *)

(** [os.path.join(a, b)] for a relative [b]: what is joined to
    [DOWNLOAD_DIR] is an entry name or a shortcode with an extension,
    and the extractor returns no shortcode with a [/] in it. *)
Definition os_path_join (a b : string) : string := a ++ "/" ++ b.

(** The name a path has inside [DOWNLOAD_DIR], if it lies there. *)
Definition entry_of (path : string) : option string :=
  if Py.startswith path (DOWNLOAD_DIR ++ "/")
  then Some (Py.drop (String.length DOWNLOAD_DIR + 1) path)
  else None.

Definition stat (path : string) (d : gmap string file) : option file :=
  name ← entry_of path; d !! name.

(** [os.listdir(DOWNLOAD_DIR)] *)
Definition os_listdir : M (list string) :=
  d <- get_downloads ; ret (map_to_list d).*1.

(** [os.path.isfile(path)] *)
Definition os_path_isfile (path : string) : M bool :=
  d <- get_downloads ;
  ret (match stat path d with Some f => isfile f | None => false end).

(** [os.unlink(path)], which [os.remove(path)] is another name of. *)
Definition os_unlink (E : env) (path : string) : M unit :=
  d <- get_downloads ;
  match entry_of path, stat path d with
  | Some name, Some f =>
      if negb (isfile f) then raise (OSError (strerror E (EISDIR path)))
      else if negb (removable f) then raise (OSError (strerror E (EACCES path)))
      else set_downloads (delete name d)
  | _, _ => raise (FileNotFoundError (strerror E (ENOENT path)))
  end.

Definition os_remove := os_unlink.

(** [with open(path, 'rb') as f: body] for a [body] that only hands
    [f] on: the file has to be there when it is opened. *)
Definition with_open_rb {A} (E : env) (path : string) (body : M A) : M A :=
  d <- get_downloads ;
  match stat path d with
  | Some f =>
      if isfile f then body else raise (OSError (strerror E (EISDIR path)))
  | None => raise (FileNotFoundError (strerror E (ENOENT path)))
  end.

(** [loader.download_post(post, target=DOWNLOAD_DIR)] for the post of
    [code]: whatever it raises, it leaves the directory as the client
    wrote it. *)
Definition loader_download_post (E : env) (code : string) : M unit :=
  d <- get_downloads ;
  set_downloads (downloaded E code d) ;;
  invoke E (download_post code DOWNLOAD_DIR).

(** [subprocess.run(args, check=True, stdout=PIPE, stderr=PIPE)]: the
    process cannot be started, or it runs and exits; with [check] a
    status other than 0 is raised as [CalledProcessError], which
    carries the captured error output. *)
Definition subprocess_run_check (E : env) (args : list string) : M unit :=
  record (subprocess_run args) ;;
  d <- get_downloads ;
  match ffmpeg E args d with
  | NotStarted e => raise e
  | Exited returncode stderr d' =>
      set_downloads d' ;;
      if returncode =? 0 then ret tt
      else raise (CalledProcessError returncode stderr
                    (strerror E (NonZeroExit args returncode)))
  end.

(** [b.decode()] *)
Definition decode (E : env) (b : Py.bytes) : result string :=
  if Py.utf8_valid b then Ok b
  else Raise (UnicodeDecodeError (strerror E (InvalidUtf8 b))).

(** [next(iter(l), None)] *)
Definition next (l : list string) : option string :=
  match l with
  | x :: _ => Some x
  | [] => None
  end.

(** [if not video_file: raise FileNotFoundError(...)]: [None] and the
    empty string are false. *)
Definition found (video_file : option string) : result string :=
  match video_file with
  | Some f =>
      if String.eqb f "" then Raise (FileNotFoundError "Downloaded file not found")
      else Ok f
  | None => Raise (FileNotFoundError "Downloaded file not found")
  end.

(** ** [cleanup_directory] (lines 65 to 73) *)

Definition cleanup_file (E : env) (filename : string) : M unit :=
  let file_path := os_path_join DOWNLOAD_DIR filename in
  try_except
    (is_file <- os_path_isfile file_path ;
     if is_file then os_unlink E file_path else ret tt)
    (except_Exception (fun e =>
       logger_error ("Failed to delete " ++ file_path ++ ": " ++ str e))).

Fixpoint for_each {A} (body : A -> M unit) (l : list A) : M unit :=
  match l with
  | [] => ret tt
  | x :: r => body x ;; for_each body r
  end.

Definition cleanup_directory (E : env) : M unit :=
  names <- os_listdir ;
  for_each (cleanup_file E) names.

(** ** The handlers *)

Definition nl : string := String (ascii_of_nat 10) EmptyString.

(** [send_welcome] (lines 75 to 89) *)
Definition welcome_msg : string :=
  "🌟 *Instagram Reels Downloader Bot* 🌟" ++ nl ++ nl ++
  "📤 *How to use:*" ++ nl ++
  "1. Send me an Instagram Reel link" ++ nl ++
  "2. Choose format (MP4 or MP3)" ++ nl ++
  "3. Get your file!" ++ nl ++ nl ++
  "⚠ *Notes:*" ++ nl ++
  "- Works with public reels only" ++ nl ++
  "- Files are deleted after sending" ++ nl ++
  "- Max duration: 90 seconds".

Definition send_welcome (E : env) (message : message) : M unit :=
  invoke E (send_message (chat_id message) welcome_msg (Some "Markdown") NoMarkup).

(** [handle_reel_url] (lines 94 to 120) *)
Definition clean_url_of (message : message) : result string :=
  first <~ getitem (Py.split "?" (text message)) 0 ;
  Ok (Py.strip_space first).

Definition handle_reel_url (E : env) (message : message) : M unit :=
  try_except
    (clean_url <- lift (clean_url_of message) ;
     code <- lift (extract_shortcode clean_url) ;
     sessions <- get_sessions ;
     set_sessions (<[chat_id message := {| url := clean_url; shortcode := code |}]> sessions) ;;
     let markup := ReplyKeyboardMarkup true true ["MP4 🎥"; "MP3 🎵"] in
     invoke E (send_message (chat_id message) "Choose download format:" None markup))
    (except_Exception (fun e =>
       logger_error ("URL handling error: " ++ str e) ;;
       invoke E (reply_to message
         "❌ Invalid Reel URL. Please send a valid public Instagram Reel link."))).

(** [process_download] (lines 123 to 200): the body of the [try] in
    two parts, the [except] clauses, and the whole. *)
Definition getitem_sessions (sessions : gmap Z session) (chat : Z) : result session :=
  match sessions !! chat with
  | Some s => Ok s
  | None => Raise (KeyError (NilZero.string_of_int (Z.to_int chat)))
  end.

(** Lines 130 to 177: the fetch, the search for the video, the
    delivery in the chosen format and the removal of the files.

    Lines 139 to 142 do not parse as they stand in [main.py]: the call
    of [next] opens two parentheses and closes one.  They are read as
    [next((f for f in ... if ...), None)], which the test
    [if not video_file] of line 143 presupposes: without the default,
    [next] would raise [StopIteration] on an empty search and no value
    could fail that test. *)
Definition process_download_deliver (E : env) (message : message) : M unit :=
  let chat_id := chat_id message in
  invoke E (send_chat_action chat_id "typing") ;;
  sessions <- get_sessions ;
  entry <- lift (getitem_sessions sessions chat_id) ;
  let shortcode := shortcode entry in
  let format_type := if Py.str_in "MP4" (text message) then "video" else "audio" in
  (* Download the reel *)
  invoke E (Post_from_shortcode shortcode) ;;
  loader_download_post E shortcode ;;
  (* Find downloaded file *)
  names <- os_listdir ;
  video_file <- lift (found (next (List.filter
                  (fun f => Py.endswith f ".mp4" && Py.str_in shortcode f) names))) ;
  let file_path := os_path_join DOWNLOAD_DIR video_file in
  (if String.eqb format_type "video" then
     invoke E (send_chat_action chat_id "upload_video") ;;
     with_open_rb E file_path
       (invoke E (send_video chat_id file_path "Here's your Instagram Reel 📹" true))
   else
     (* Convert to MP3 *)
     let audio_path := os_path_join DOWNLOAD_DIR (shortcode ++ ".mp3") in
     subprocess_run_check E
       ["ffmpeg"; "-i"; file_path; "-q:a"; "0"; "-map"; "a"; audio_path] ;;
     invoke E (send_chat_action chat_id "upload_audio") ;;
     with_open_rb E audio_path
       (invoke E (send_audio chat_id audio_path "Instagram Reel Audio")) ;;
     os_remove E audio_path) ;;
  (* Cleanup *)
  os_remove E file_path.

(** Lines 178 to 186: the session is dropped and the user told. *)
Definition process_download_finish (E : env) (message : message) : M unit :=
  let chat_id := chat_id message in
  sessions <- get_sessions ;
  set_sessions (delete chat_id sessions) ;;
  let markup := ReplyKeyboardMarkup false true ["📥 Download Another"] in
  invoke E (send_message chat_id "✅ Download complete!" None markup).

Definition process_download_try (E : env) (message : message) : M unit :=
  process_download_deliver E message ;;
  process_download_finish E message.

Definition process_download_except (E : env) (message : message) (e : exn)
  : option (M unit) :=
  match e with
  | BadResponseException _ =>
      Some (invoke E (reply_to message
              "❌ Instagram error. The reel might be private or unavailable."))
  | CalledProcessError _ stderr _ =>
      Some (diagnostic <- lift (decode E stderr) ;
            logger_error ("FFmpeg error: " ++ diagnostic) ;;
            invoke E (reply_to message "❌ Audio conversion failed"))
  | _ =>
      except_Exception (fun e =>
        logger_error ("Download error: " ++ str e) ;;
        invoke E (reply_to message ("❌ Error: " ++ str e))) e
  end.

Definition process_download (E : env) (message : message) : M unit :=
  sessions <- get_sessions ;
  if decide (chat_id message ∈ dom sessions) then
    try_finally
      (try_except (process_download_try E message) (process_download_except E message))
      (cleanup_directory E)
  else invoke E (reply_to message "⚠ Please send a Reel link first").

(** [restart_flow] (lines 202 to 209) *)
Definition restart_flow (E : env) (message : message) : M unit :=
  invoke E (send_message (chat_id message) "Send me another Instagram Reel link:"
              None ReplyKeyboardRemove).

(** ** The message interface: the filters of the four handlers, tried
    in the order of registration; the first that holds takes the
    message. *)

(** [commands=['start', 'help']]: the text starts with [/] and its first
    word, up to an [@] and without the [/], is one of the commands. *)
Definition extract_command (body : string) : option string :=
  if Py.startswith body "/"
  then Some (Py.drop 1 (fst (Py.partition "@" (Py.first_word body))))
  else None.

Definition send_welcome_filter (m : message) : bool :=
  match extract_command (text m) with
  | Some c => existsb (String.eqb c) ["start"; "help"]
  | None => false
  end.

Definition handle_reel_url_filter (m : message) : bool :=
  existsb (fun x => Py.str_in x (Py.lower (text m)))
          ["instagram.com/reel/"; "instagram.com/p/"].

Definition process_download_filter (m : message) : bool :=
  existsb (String.eqb (text m)) ["MP4 🎥"; "MP3 🎵"].

Definition restart_flow_filter (m : message) : bool :=
  String.eqb (text m) "📥 Download Another".

Definition handle_message (E : env) (m : message) : M unit :=
  if send_welcome_filter m then send_welcome E m
  else if handle_reel_url_filter m then handle_reel_url E m
  else if process_download_filter m then process_download E m
  else if restart_flow_filter m then restart_flow E m
  else ret tt.

(** ** Notions the statements use *)

(** [keeps R m]: the session dictionary after [m] is related by [R]
    to the one before. *)
Definition keeps (R : relation (gmap Z session)) {A} (m : M A) : Prop :=
  ∀ w, R (user_sessions w) (user_sessions (m w).2).

(** [shrinks before after]: no session was added or replaced. *)
Definition shrinks : relation (gmap Z session) := fun before after => after ⊆ before.

(** [emits P m]: [m] only adds calls to the record, and each call it
    adds satisfies [P]. *)
Definition emits (P : call → Prop) {A} (m : M A) : Prop :=
  ∀ w, ∃ new, calls (m w).2 = (calls w ++ new)%list ∧ Forall P new.

(** A call that goes to conversation [chat], or to no conversation. *)
Definition addressed_to (chat : Z) (c : call) : Prop :=
  match c with
  | send_message chat' _ _ _ | send_chat_action chat' _
  | send_video chat' _ _ _ | send_audio chat' _ _ => chat' = chat
  | reply_to m _ => chat_id m = chat
  | Post_from_shortcode _ | download_post _ _ | subprocess_run _ => True
  end.

(** A text message or a reply: neither a fetch, nor a conversion, nor
    the delivery of a file, nor a presence indicator. *)
Definition is_text (c : call) : Prop :=
  match c with
  | send_message _ _ _ _ | reply_to _ _ => True
  | _ => False
  end.

(** The calls of the audio path alone, and of the video path alone. *)
Definition audio_only (c : call) : Prop :=
  match c with
  | subprocess_run _ | send_audio _ _ _ | send_chat_action _ "upload_audio" => True
  | _ => False
  end.

Definition video_only (c : call) : Prop :=
  match c with
  | send_video _ _ _ _ | send_chat_action _ "upload_video" => True
  | _ => False
  end.

(** [starts_with c m]: [m] only adds calls to the record, and the
    first it adds is [c]. *)
Definition starts_with (c : call) {A} (m : M A) : Prop :=
  ∀ w, ∃ rest, calls (m w).2 = (calls w ++ c :: rest)%list.

(** What the handler parses: the text before the first [?], stripped,
    and the shortcode the extractor finds in it. *)
Definition parse_link (m : message) : result (string * string) :=
  clean_url <~ clean_url_of m ;
  code <~ extract_shortcode clean_url ;
  Ok (clean_url, code).

(** An entry [os.unlink] removes, and one it fails on. *)
Definition deletable (o : option file) : bool :=
  match o with
  | Some f => isfile f && removable f
  | None => false
  end.

Definition stuck (o : option file) : bool :=
  match o with
  | Some f => isfile f && negb (removable f)
  | None => false
  end.

(** The line logged for a file that could not be deleted. *)
Definition failure_line (E : env) (name : string) : string :=
  let file_path := os_path_join DOWNLOAD_DIR name in
  "Failed to delete " ++ file_path ++ ": " ++ strerror E (EACCES file_path).

Definition failure_lines (E : env) (d : gmap string file) (names : list string)
  : list string :=
  flat_map (fun name => if stuck (d !! name) then [failure_line E name] else []) names.

(** ** Scenarios

    Collaborators and worlds to run the handlers on. *)

Module Scenario.

Definition plain : file := {| isfile := true; removable := true |}.
Definition locked : file := {| isfile := true; removable := false |}.
Definition folder : file := {| isfile := false; removable := false |}.

(** The texts of the library errors these scenarios meet: those of
    [OSError] for a path, of [CalledProcessError] for the conversion of
    [ABC123] with status 1, and of [UnicodeDecodeError] for a first
    byte 255. *)
Definition errors (e : lib_error) : string :=
  match e with
  | ENOENT path => "[Errno 2] No such file or directory: '" ++ path ++ "'"
  | EISDIR path => "[Errno 21] Is a directory: '" ++ path ++ "'"
  | EACCES path => "[Errno 13] Permission denied: '" ++ path ++ "'"
  | NonZeroExit _ _ =>
      "Command '['ffmpeg', '-i', 'downloads/ABC123.mp4', '-q:a', '0', '-map', 'a', "
      ++ "'downloads/ABC123.mp3']' returned non-zero exit status 1."
  | InvalidUtf8 _ => "'utf-8' codec can't decode byte 0xff in position 0: invalid start byte"
  end.

(** Every call succeeds; the client writes the video of the post and
    [ffmpeg] the audio file it is asked for (its last argument). *)
Definition all_well : env :=
  {| outcome := fun _ => None;
     downloaded := fun code d => <[code ++ ".mp4" := plain]> d;
     ffmpeg := fun args d =>
       match entry_of (List.last args "") with
       | Some name => Exited 0 "" (<[name := plain]> d)
       | None => Exited 0 "" d
       end;
     strerror := errors |}.

(** The client reports the post as unavailable. *)
Definition unavailable : env :=
  {| outcome := fun c =>
       match c with
       | Post_from_shortcode _ => Some (BadResponseException "Fetching Post metadata failed.")
       | _ => None
       end;
     downloaded := fun _ d => d;
     ffmpeg := ffmpeg all_well;
     strerror := errors |}.

(** The client returns without having written a video. *)
Definition nothing_written : env :=
  {| outcome := fun _ => None;
     downloaded := fun _ d => d;
     ffmpeg := ffmpeg all_well;
     strerror := errors |}.

(** [ffmpeg] exits with status 1 and the given error output. *)
Definition conversion_fails (stderr : Py.bytes) : env :=
  {| outcome := fun _ => None;
     downloaded := downloaded all_well;
     ffmpeg := fun _ d => Exited 1 stderr d;
     strerror := errors |}.

(** The transport is down: every call to the bot raises. *)
Definition transport_down : env :=
  {| outcome := fun c =>
       match c with
       | Post_from_shortcode _ | download_post _ _ | subprocess_run _ => None
       | _ => Some (Exception "A request to the Telegram API was unsuccessful.")
       end;
     downloaded := downloaded all_well;
     ffmpeg := ffmpeg all_well;
     strerror := errors |}.

Definition fresh : world :=
  {| user_sessions := ∅; downloads := ∅; logged := []; calls := [] |}.

(** Conversation 7 has sent a link to the post [ABC123]. *)
Definition pending : world :=
  {| user_sessions :=
       {[ 7 := {| url := "https://instagram.com/reel/reel/ABC123";
                  shortcode := "ABC123" |} ]};
     downloads := ∅; logged := []; calls := [] |}.

(** The same, with files left in the directory: one that can be
    removed, one that cannot, and a sub-directory. *)
Definition littered : world :=
  {| user_sessions := user_sessions pending;
     downloads := {[ "old.mp4" := plain; "held.mp4" := locked; "cache" := folder ]};
     logged := []; calls := [] |}.

Definition mp4 : message := {| chat_id := 7; text := "MP4 🎥" |}.
Definition mp3 : message := {| chat_id := 7; text := "MP3 🎵" |}.

(** The byte 255, which no UTF-8 text contains. *)
Definition not_utf8 : Py.bytes := String (ascii_of_nat 255) EmptyString.

End Scenario.

(** * Verification *)

(** ** What a computation does to the session dictionary *)

Section Sessions.

Variable R : relation (gmap Z session).
Hypothesis R_refl : ∀ s, R s s.
Hypothesis R_trans : ∀ a b c, R a b → R b c → R a c.

Lemma keeps_ret {A} (a : A) : keeps R (ret a).
Proof. intros w. apply R_refl. Qed.

Lemma keeps_raise {A} (e : exn) : keeps R (@raise A e).
Proof. intros w. apply R_refl. Qed.

Lemma keeps_lift {A} (r : result A) : keeps R (lift r).
Proof. intros w. apply R_refl. Qed.

Lemma keeps_bind {A B} (m : M A) (k : A → M B) :
  keeps R m → (∀ a, keeps R (k a)) → keeps R (bind m k).
Proof.
  intros Hm Hk w. unfold bind. specialize (Hm w).
  destruct (m w) as [[a|e] w1]; simpl in *; [|done].
  eapply R_trans; [exact Hm | apply Hk].
Qed.

Lemma keeps_try_except {A} (body : M A) (handler : exn → option (M A)) :
  keeps R body → (∀ e h, handler e = Some h → keeps R h) → keeps R (try_except body handler).
Proof.
  intros Hb Hh w. unfold try_except. specialize (Hb w).
  destruct (body w) as [[a|e] w1]; simpl in *; [done|].
  destruct (handler e) as [h|] eqn:He; simpl; [|done].
  eapply R_trans; [exact Hb | eapply Hh, He].
Qed.

Lemma keeps_try_finally {A} (body : M A) (final : M unit) :
  keeps R body → keeps R final → keeps R (try_finally body final).
Proof.
  intros Hb Hf w. unfold try_finally. specialize (Hb w).
  destruct (body w) as [r w1]. specialize (Hf w1).
  destruct (final w1) as [[[]|e] w2]; simpl in *; eapply R_trans; eauto.
Qed.

Lemma keeps_except_Exception {A} (h : exn → M A) e k :
  (∀ e, keeps R (h e)) → except_Exception h e = Some k → keeps R k.
Proof. unfold except_Exception. intros Hh. case_match; naive_solver. Qed.

Lemma keeps_get_sessions : keeps R get_sessions.
Proof. intros w. apply R_refl. Qed.

Lemma keeps_get_downloads : keeps R get_downloads.
Proof. intros w. apply R_refl. Qed.

Lemma keeps_set_downloads d : keeps R (set_downloads d).
Proof. intros w. apply R_refl. Qed.

Lemma keeps_logger_error line : keeps R (logger_error line).
Proof. intros w. apply R_refl. Qed.

Lemma keeps_record c : keeps R (record c).
Proof. intros w. apply R_refl. Qed.

Lemma keeps_invoke E c : keeps R (invoke E c).
Proof. intros w. unfold invoke. destruct (outcome E c); apply R_refl. Qed.

Lemma keeps_for_each {A} (body : A → M unit) l :
  (∀ a, keeps R (body a)) → keeps R (for_each body l).
Proof.
  intros Hb. induction l as [|a l IH]; simpl.
  - apply keeps_ret.
  - apply keeps_bind; auto.
Qed.

(** Goes through a computation built from the primitives above. *)
Ltac keeps_step :=
  match goal with
  | |- keeps R (bind _ _) => apply keeps_bind; [| intros ?]
  | |- keeps R (if ?b then _ else _) => destruct b
  | |- keeps R (match ?x with _ => _ end) => destruct x
  | |- keeps R (for_each _ _) => apply keeps_for_each; intros ?
  | |- keeps R _ =>
      first [ apply keeps_ret | apply keeps_raise | apply keeps_lift
            | apply keeps_get_sessions | apply keeps_get_downloads
            | apply keeps_set_downloads | apply keeps_logger_error
            | apply keeps_record | apply keeps_invoke ]
  end.

Lemma keeps_os_unlink E path : keeps R (os_unlink E path).
Proof. unfold os_unlink. repeat keeps_step. Qed.

Lemma keeps_with_open_rb {A} E path (body : M A) :
  keeps R body → keeps R (with_open_rb E path body).
Proof. intros Hb. unfold with_open_rb. repeat keeps_step; auto. Qed.

Lemma keeps_subprocess_run_check E args : keeps R (subprocess_run_check E args).
Proof. unfold subprocess_run_check. repeat keeps_step. Qed.

Lemma keeps_cleanup_file E name : keeps R (cleanup_file E name).
Proof.
  unfold cleanup_file. apply keeps_try_except.
  - unfold os_path_isfile. repeat keeps_step. apply keeps_os_unlink.
  - intros e h. apply keeps_except_Exception. intros e'. repeat keeps_step.
Qed.

Lemma keeps_cleanup_directory E : keeps R (cleanup_directory E).
Proof.
  unfold cleanup_directory, os_listdir. repeat keeps_step.
  apply keeps_cleanup_file.
Qed.

Lemma keeps_process_download_deliver E m : keeps R (process_download_deliver E m).
Proof.
  unfold process_download_deliver, loader_download_post, os_listdir, os_remove.
  repeat first
    [ apply keeps_os_unlink | apply keeps_subprocess_run_check
    | apply keeps_with_open_rb | keeps_step ].
Qed.

Lemma keeps_process_download_except E m e h :
  process_download_except E m e = Some h → keeps R h.
Proof.
  unfold process_download_except.
  destruct e; try (apply keeps_except_Exception; intros e'; repeat keeps_step);
    intros [= <-]; repeat keeps_step.
Qed.

Lemma keeps_send_welcome E m : keeps R (send_welcome E m).
Proof. apply keeps_invoke. Qed.

Lemma keeps_restart_flow E m : keeps R (restart_flow E m).
Proof. apply keeps_invoke. Qed.

(** Dropping an entry is the one change [process_download] makes. *)
Hypothesis R_delete : ∀ s c, R s (delete c s).

Lemma keeps_process_download_finish E m : keeps R (process_download_finish E m).
Proof.
  intros w. unfold process_download_finish, bind, get_sessions, set_sessions, invoke.
  simpl. destruct (outcome E _); simpl; apply R_delete.
Qed.

Lemma keeps_process_download E m : keeps R (process_download E m).
Proof.
  unfold process_download. apply keeps_bind; [apply keeps_get_sessions|].
  intros s. case_decide; [|apply keeps_invoke].
  apply keeps_try_finally; [|apply keeps_cleanup_directory].
  apply keeps_try_except; [|apply keeps_process_download_except].
  apply keeps_bind; [apply keeps_process_download_deliver|].
  intros ?. apply keeps_process_download_finish.
Qed.

End Sessions.

(** ** [cleanup_directory] *)

Lemma entry_of_join name : entry_of (os_path_join DOWNLOAD_DIR name) = Some name.
Proof. reflexivity. Qed.

Lemma stat_join name d : stat (os_path_join DOWNLOAD_DIR name) d = d !! name.
Proof. reflexivity. Qed.

(** One turn of the loop: the entry goes if it is a regular file that
    can be removed, a line is logged if it is one that cannot, and
    nothing is raised. *)
Lemma cleanup_file_run E name w :
  cleanup_file E name w =
  (Ok tt,
   {| user_sessions := user_sessions w;
      downloads := if deletable (downloads w !! name)
                   then delete name (downloads w) else downloads w;
      logged := if stuck (downloads w !! name)
                then logged w ++ [failure_line E name] else logged w;
      calls := calls w |}).
Proof.
  destruct w as [s d l c].
  unfold cleanup_file, failure_line, os_path_isfile, os_unlink, except_Exception.
  unfold try_except, bind, get_downloads, ret, raise, set_downloads, logger_error.
  cbn [downloads user_sessions logged calls].
  rewrite entry_of_join, !stat_join.
  destruct (d !! name) as [[[] []]|] eqn:Hd;
    cbn [isfile removable negb downloads user_sessions logged calls];
    rewrite ?stat_join, ?Hd; reflexivity.
Qed.

Lemma stuck_delete (d : gmap string file) (name k : string) :
  deletable (d !! name) = true → stuck (delete name d !! k) = stuck (d !! k).
Proof.
  intros Hdel. destruct (decide (name = k)) as [->|Hne].
  - rewrite lookup_delete_eq. destruct (d !! k) as [[[] []]|]; done.
  - by rewrite lookup_delete_ne.
Qed.

Lemma failure_lines_delete E (d : gmap string file) (name : string) names :
  deletable (d !! name) = true →
  failure_lines E (delete name d) names = failure_lines E d names.
Proof.
  intros Hdel. unfold failure_lines. induction names as [|k names IH]; [done|].
  simpl. by rewrite IH, stuck_delete.
Qed.

(** The loop over any list of names. *)
Lemma cleanup_loop E names : ∀ w,
  ∃ w', for_each (cleanup_file E) names w = (Ok tt, w')
    ∧ user_sessions w' = user_sessions w
    ∧ calls w' = calls w
    ∧ logged w' = (logged w ++ failure_lines E (downloads w) names)%list
    ∧ ∀ k, downloads w' !! k =
           if bool_decide (k ∈ names) && deletable (downloads w !! k)
           then None else downloads w !! k.
Proof.
  induction names as [|name names IH]; intros w.
  - exists w. simpl. rewrite app_nil_r. repeat split; try done.
  - simpl. unfold bind. rewrite cleanup_file_run.
    set (w1 := {| user_sessions := _ |}).
    destruct (IH w1) as (w' & Hrun & Hs & Hc & Hl & Hd).
    exists w'. rewrite Hrun, Hs, Hc, Hl. subst w1. simpl.
    split; [done|]. split; [done|]. split; [done|]. split.
    + unfold failure_lines at 2. simpl. fold (failure_lines E (downloads w) names).
      destruct (deletable (downloads w !! name)) eqn:Hdel.
      * rewrite failure_lines_delete by done.
        destruct (downloads w !! name) as [[[] []]|]; done.
      * destruct (stuck (downloads w !! name)); [|done].
        by rewrite <- app_assoc.
    + intros k. rewrite Hd. simpl.
      destruct (decide (k = name)) as [->|Hne].
      * rewrite (bool_decide_eq_true_2 (name ∈ name :: names)) by left. simpl.
        destruct (deletable (downloads w !! name)) eqn:Hdel.
        -- rewrite lookup_delete_eq. simpl. by rewrite andb_false_r.
        -- rewrite Hdel. by rewrite andb_false_r.
      * assert (bool_decide (k ∈ name :: names) = bool_decide (k ∈ names)) as ->.
        { apply bool_decide_ext. rewrite elem_of_cons.
          split; [intros [?|?]; done | by right]. }
        destruct (deletable (downloads w !! name)); [|done].
        by rewrite lookup_delete_ne.
Qed.

(** The whole step: it never raises, touches neither the sessions nor
    the calls, leaves of the directory what is not a removable regular
    file, and logs one line per regular file it could not remove. *)
Lemma cleanup_directory_run E w :
  ∃ w', cleanup_directory E w = (Ok tt, w')
    ∧ user_sessions w' = user_sessions w
    ∧ calls w' = calls w
    ∧ logged w' = (logged w ++ failure_lines E (downloads w)
                                (map_to_list (downloads w)).*1)%list
    ∧ ∀ k, downloads w' !! k =
           if deletable (downloads w !! k) then None else downloads w !! k.
Proof.
  unfold cleanup_directory, os_listdir, bind, get_downloads, ret.
  destruct (cleanup_loop E (map_to_list (downloads w)).*1 w)
    as (w' & Hrun & Hs & Hc & Hl & Hd).
  exists w'. repeat split; try done.
  intros k. rewrite Hd.
  destruct (downloads w !! k) as [f|] eqn:Hk; simpl.
  - rewrite bool_decide_eq_true_2; [done|].
    apply list_elem_of_fmap. exists (k, f). split; [done|].
    by apply elem_of_map_to_list.
  - by rewrite andb_false_r.
Qed.

(** ** The link handler *)

Lemma getitem_raises l i e : getitem l i = Raise e → is_Exception e = true.
Proof. unfold getitem. destruct (l !! i); by intros [= <-]. Qed.

Lemma urlparse_raises u e : urllib.urlparse u = Raise e → is_Exception e = true.
Proof.
  unfold urllib.urlparse, urllib.urlsplit, rbind.
  repeat case_match; intros; simplify_eq; done.
Qed.

(** The extractor raises nothing but [ValueError] and [IndexError]. *)
Lemma extract_shortcode_raises u e :
  extract_shortcode u = Raise e → is_Exception e = true.
Proof.
  unfold extract_shortcode, rbind.
  destruct (urllib.urlparse u) as [p|e'] eqn:Hp.
  - unfold shortcode_of_path, rbind.
    repeat case_match; intros; simplify_eq; eauto using getitem_raises.
  - intros [= <-]. eauto using urlparse_raises.
Qed.

Lemma parse_link_raises m e : parse_link m = Raise e → is_Exception e = true.
Proof.
  unfold parse_link, clean_url_of, rbind.
  repeat case_match; intros; simplify_eq;
    eauto using getitem_raises, extract_shortcode_raises.
Qed.

(** A link that parses: the session is stored before the keyboard is
    sent, and stays whatever the transport does. *)
Lemma handle_reel_url_parsed E m w u code :
  parse_link m = Ok (u, code) →
  user_sessions (handle_reel_url E m w).2 =
  <[chat_id m := {| url := u; shortcode := code |}]> (user_sessions w).
Proof.
  unfold parse_link, rbind. intros H.
  destruct (clean_url_of m) as [u'|] eqn:Hu; [|done].
  destruct (extract_shortcode u') as [c'|] eqn:Hc; [|done].
  injection H as -> ->.
  unfold handle_reel_url, try_except, bind, lift. rewrite Hu, Hc.
  unfold get_sessions, set_sessions, invoke, except_Exception, logger_error.
  cbn [user_sessions downloads logged calls].
  destruct (outcome E (send_message _ _ _ _)) as [e|]; [|done].
  destruct (is_Exception e); [|done].
  cbn [user_sessions downloads logged calls].
  by destruct (outcome E (reply_to _ _)).
Qed.

(** A link that does not parse. *)
Lemma handle_reel_url_rejected E m w e :
  parse_link m = Raise e →
  handle_reel_url E m w =
  (match outcome E (reply_to m
       "❌ Invalid Reel URL. Please send a valid public Instagram Reel link.") with
   | None => Ok tt
   | Some e' => Raise e'
   end,
   {| user_sessions := user_sessions w;
      downloads := downloads w;
      logged := logged w ++ ["URL handling error: " ++ str e];
      calls := calls w ++ [reply_to m
        "❌ Invalid Reel URL. Please send a valid public Instagram Reel link."] |}).
Proof.
  intros H. pose proof (parse_link_raises _ _ H) as Hexc.
  unfold parse_link, rbind in H.
  unfold handle_reel_url, try_except, bind, lift.
  destruct (clean_url_of m) as [u'|e1] eqn:Hu.
  - destruct (extract_shortcode u') as [c'|e2] eqn:Hc; [done|].
    injection H as ->. unfold except_Exception. rewrite Hexc.
    unfold logger_error, invoke. cbn [user_sessions downloads logged calls].
    by destruct (outcome E _).
  - injection H as ->. unfold except_Exception. rewrite Hexc.
    unfold logger_error, invoke. cbn [user_sessions downloads logged calls].
    by destruct (outcome E _).
Qed.

(** ** The format selector *)

(** C7.  A format selection for a conversation without a pending
    session makes one call, the reply with the precondition message,
    and changes nothing else: no fetch, no conversion and no delivery
    is invoked, and sessions, directory and log stay as they were. *)
Theorem format_without_session E m w :
  chat_id m ∉ dom (user_sessions w) →
  ∃ r, process_download E m w =
       (r, {| user_sessions := user_sessions w;
              downloads := downloads w;
              logged := logged w;
              calls := calls w ++ [reply_to m "⚠ Please send a Reel link first"] |}).
Proof.
  intros Hno. unfold process_download, bind, get_sessions.
  rewrite decide_False by done. unfold invoke.
  destruct (outcome E _); eauto.
Qed.

Lemma format_without_session_witness :
  (chat_id Scenario.mp4 ∉ dom (user_sessions Scenario.fresh))
  ∧ (∃ r, process_download Scenario.all_well Scenario.mp4 Scenario.fresh =
          (r, {| user_sessions := ∅; downloads := ∅; logged := [];
                 calls := [reply_to Scenario.mp4 "⚠ Please send a Reel link first"] |})).
Proof.
  assert (chat_id Scenario.mp4 ∉ dom (user_sessions Scenario.fresh)) as H.
  { simpl. rewrite dom_empty_L. apply not_elem_of_empty. }
  split; [exact H|].
  exact (format_without_session Scenario.all_well Scenario.mp4 Scenario.fresh H).
Defined.

(** C9.  When the link does not parse, the handler logs the error and
    replies with the invalid-link message, and the session dictionary
    is the one it found, for every conversation; the directory is
    untouched as well. *)
Theorem link_parse_failure_mutates_nothing E m w e :
  parse_link m = Raise e →
  let w' := (handle_reel_url E m w).2 in
  user_sessions w' = user_sessions w
  ∧ (∀ c, user_sessions w' !! c = user_sessions w !! c)
  ∧ downloads w' = downloads w
  ∧ calls w' = (calls w ++ [reply_to m
      "❌ Invalid Reel URL. Please send a valid public Instagram Reel link."])%list
  ∧ logged w' = (logged w ++ [("URL handling error: " ++ str e)%string])%list.
Proof.
  intros H. rewrite (handle_reel_url_rejected E m w e H). simpl. done.
Qed.

Lemma link_parse_failure_mutates_nothing_witness :
  let m := {| chat_id := 7; text := "https://example.com/instagram.com/reel/ABC123" |} in
  parse_link m = Raise (ValueError "Invalid Instagram URL")
  ∧ user_sessions (handle_reel_url Scenario.all_well m Scenario.pending).2
    = user_sessions Scenario.pending.
Proof.
  intros m.
  assert (parse_link m = Raise (ValueError "Invalid Instagram URL")) as H
    by (vm_compute; reflexivity).
  split; [exact H|].
  exact (proj1 (link_parse_failure_mutates_nothing
                  Scenario.all_well m Scenario.pending _ H)).
Defined.

(** ** The attempt and its cleanup *)

Lemma process_download_attempt E m w :
  chat_id m ∈ dom (user_sessions w) →
  process_download E m w =
  try_finally
    (try_except (process_download_try E m) (process_download_except E m))
    (cleanup_directory E) w.
Proof.
  intros Hin. unfold process_download, bind, get_sessions.
  by rewrite decide_True.
Qed.

(** [finally: cleanup_directory()] after any body. *)
Lemma finally_cleanup {A} E (body : M A) w :
  ∃ w', cleanup_directory E (body w).2 = (Ok tt, w')
    ∧ try_finally body (cleanup_directory E) w = ((body w).1, w').
Proof.
  destruct (cleanup_directory_run E (body w).2) as (w' & Hrun & _).
  exists w'. split; [done|]. unfold try_finally.
  destruct (body w) as [r w1]. simpl in Hrun. by rewrite Hrun.
Qed.

(** C5.  After every attempt, whatever its outcome [r] (a return or an
    exception of any class), the cleanup step runs on the directory as
    the attempt left it and does not raise; every regular file that
    can be removed is gone, every other entry is left, and one line is
    logged for each regular file whose removal failed. *)
Theorem cleanup_after_every_attempt E m w :
  chat_id m ∈ dom (user_sessions w) →
  ∃ r w1 w',
    try_except (process_download_try E m) (process_download_except E m) w = (r, w1)
    ∧ cleanup_directory E w1 = (Ok tt, w')
    ∧ process_download E m w = (r, w')
    ∧ (∀ k, downloads w' !! k =
            if deletable (downloads w1 !! k) then None else downloads w1 !! k)
    ∧ logged w' = (logged w1 ++ failure_lines E (downloads w1)
                                  (map_to_list (downloads w1)).*1)%list.
Proof.
  intros Hin. rewrite (process_download_attempt E m w Hin).
  set (attempt := try_except _ _).
  destruct (finally_cleanup E attempt w) as (w' & Hclean & Hfin).
  destruct (cleanup_directory_run E (attempt w).2) as (w'' & Hrun & _ & _ & Hlog & Hdir).
  rewrite Hclean in Hrun. injection Hrun as <-.
  exists (attempt w).1, (attempt w).2, w'.
  split; [by destruct (attempt w)|]. done.
Qed.

Lemma cleanup_after_every_attempt_witness :
  (chat_id Scenario.mp4 ∈ dom (user_sessions Scenario.littered))
  ∧ (∃ r w1 w',
       try_except (process_download_try Scenario.unavailable Scenario.mp4)
                  (process_download_except Scenario.unavailable Scenario.mp4)
                  Scenario.littered = (r, w1)
       ∧ cleanup_directory Scenario.unavailable w1 = (Ok tt, w')
       ∧ process_download Scenario.unavailable Scenario.mp4 Scenario.littered = (r, w')
       ∧ (∀ k, downloads w' !! k =
               if deletable (downloads w1 !! k) then None else downloads w1 !! k)
       ∧ logged w' = (logged w1 ++ failure_lines Scenario.unavailable (downloads w1)
                                     (map_to_list (downloads w1)).*1)%list).
Proof.
  assert (chat_id Scenario.mp4 ∈ dom (user_sessions Scenario.littered)) as H.
  { simpl. rewrite dom_singleton_L. by apply elem_of_singleton. }
  split; [exact H|].
  exact (cleanup_after_every_attempt Scenario.unavailable Scenario.mp4
           Scenario.littered H).
Defined.

(** The same attempt run: of the three entries, the removable file is
    gone, the locked one is logged and left with the sub-directory. *)
Example cleanup_littered :
  let w' := (process_download Scenario.unavailable Scenario.mp4 Scenario.littered).2 in
  map_to_list (downloads w') =
    [("cache", Scenario.folder); ("held.mp4", Scenario.locked)]
  ∧ logged w' =
    ["Failed to delete downloads/held.mp4: [Errno 13] Permission denied: 'downloads/held.mp4'"].
Proof. vm_compute. split; reflexivity. Qed.

(** ** The error classes of an attempt *)

(** The calls made once the [try] has raised [e] and clause [h] has
    caught it: those of [h], the cleanup adding none. *)
Lemma caught E m w e w1 h :
  chat_id m ∈ dom (user_sessions w) →
  process_download_try E m w = (Raise e, w1) →
  process_download_except E m e = Some h →
  calls (process_download E m w).2 = calls (h w1).2.
Proof.
  intros Hin Htry Hh. rewrite (process_download_attempt E m w Hin).
  set (attempt := try_except _ _).
  destruct (finally_cleanup E attempt w) as (w' & Hclean & ->).
  destruct (cleanup_directory_run E (attempt w).2) as (w'' & Hrun & _ & Hcalls & _).
  rewrite Hclean in Hrun. injection Hrun as <-.
  simpl. rewrite Hcalls. subst attempt. unfold try_except.
  by rewrite Htry, Hh.
Qed.

Lemma calls_invoke E c w : calls (invoke E c w).2 = (calls w ++ [c])%list.
Proof. unfold invoke. by destruct (outcome E c). Qed.

(** C8.  When the attempt raises the retrieval client's
    [BadResponseException], the user is sent the content-specific
    message; when it raises any other exception that the generic
    clause catches (one under [Exception] that is not a
    [CalledProcessError] either), the user is sent the generic message
    with the text of the error; and no generic message, whatever the
    error text, is the content-specific one. *)
Theorem error_classes_get_their_own_message E m w e w1 :
  chat_id m ∈ dom (user_sessions w) →
  process_download_try E m w = (Raise e, w1) →
  let w' := (process_download E m w).2 in
  (∀ t, e = BadResponseException t →
        calls w' = (calls w1 ++ [reply_to m
          "❌ Instagram error. The reel might be private or unavailable."])%list)
  ∧ (is_Exception e = true →
     (∀ t, e ≠ BadResponseException t) →
     (∀ rc err t, e ≠ CalledProcessError rc err t) →
     calls w' = (calls w1 ++ [reply_to m ("❌ Error: " ++ str e)%string])%list)
  ∧ (∀ t, ("❌ Error: " ++ t)%string
          ≠ "❌ Instagram error. The reel might be private or unavailable.").
Proof.
  intros Hin Htry w'. subst w'. split; [|split].
  - intros t ->. erewrite caught by (done || reflexivity).
    apply calls_invoke.
  - intros Hexc Hbad Hcpe.
    assert (process_download_except E m e =
            Some (logger_error ("Download error: " ++ str e) ;;
                  invoke E (reply_to m ("❌ Error: " ++ str e)))) as Hh.
    { destruct e; try (by simpl in Hexc); try reflexivity.
      - by destruct (Hbad text0).
      - by destruct (Hcpe returncode stderr text0). }
    erewrite caught by done.
    unfold bind, logger_error. cbn [fst snd]. by rewrite calls_invoke.
  - intros t. simpl. discriminate.
Qed.

Lemma error_classes_get_their_own_message_witness :
  (chat_id Scenario.mp4 ∈ dom (user_sessions Scenario.pending))
  ∧ (∃ w1,
       process_download_try Scenario.unavailable Scenario.mp4 Scenario.pending
       = (Raise (BadResponseException "Fetching Post metadata failed."), w1)
       ∧ calls (process_download Scenario.unavailable Scenario.mp4 Scenario.pending).2
         = (calls w1 ++ [reply_to Scenario.mp4
             "❌ Instagram error. The reel might be private or unavailable."])%list).
Proof.
  assert (chat_id Scenario.mp4 ∈ dom (user_sessions Scenario.pending)) as H.
  { simpl. rewrite dom_singleton_L. by apply elem_of_singleton. }
  split; [exact H|].
  eexists. split; [vm_compute; reflexivity|].
  refine (proj1 (error_classes_get_their_own_message Scenario.unavailable
                   Scenario.mp4 Scenario.pending _ _ H _) _ eq_refl).
  vm_compute; reflexivity.
Defined.

(** ** The session after an attempt *)

Lemma unchanged_refl (s : gmap Z session) : s = s.
Proof. reflexivity. Qed.

Lemma unchanged_trans (a b c : gmap Z session) : a = b → b = c → a = c.
Proof. congruence. Qed.

Lemma deliver_sessions E m w :
  user_sessions (process_download_deliver E m w).2 = user_sessions w.
Proof.
  symmetry. apply (keeps_process_download_deliver eq unchanged_refl unchanged_trans).
Qed.

Lemma finish_sessions E m w :
  user_sessions (process_download_finish E m w).2 = delete (chat_id m) (user_sessions w).
Proof.
  unfold process_download_finish, bind, get_sessions, set_sessions, invoke. simpl.
  by destruct (outcome E _).
Qed.

Lemma except_sessions E m e h w :
  process_download_except E m e = Some h → user_sessions (h w).2 = user_sessions w.
Proof.
  intros Hh. symmetry.
  by apply (keeps_process_download_except eq unchanged_refl unchanged_trans E m e h).
Qed.

(** The cleanup leaves the sessions as the [try] and its clauses did. *)
Lemma attempt_sessions E m w :
  chat_id m ∈ dom (user_sessions w) →
  user_sessions (process_download E m w).2 =
  user_sessions (try_except (process_download_try E m) (process_download_except E m) w).2.
Proof.
  intros Hin. rewrite (process_download_attempt E m w Hin).
  set (attempt := try_except _ _).
  destruct (finally_cleanup E attempt w) as (w' & Hclean & ->).
  destruct (cleanup_directory_run E (attempt w).2) as (w'' & Hrun & Hs & _).
  rewrite Hclean in Hrun. by injection Hrun as <-.
Qed.




(** ** Which messages create a session *)

Lemma shrinks_refl s : shrinks s s.
Proof. unfold shrinks. done. Qed.

Lemma shrinks_trans a b c : shrinks a b → shrinks b c → shrinks a c.
Proof. unfold shrinks. intros Hab Hbc. by transitivity b. Qed.

Lemma shrinks_delete s (c : Z) : shrinks s (delete c s).
Proof. apply delete_subseteq. Qed.

Lemma shrinks_eq s s' : s = s' → shrinks s s'.
Proof. intros ->. apply shrinks_refl. Qed.

(** No handler but the link handler adds or replaces a session. *)
Lemma other_handlers_shrink E m w :
  handle_reel_url_filter m = false ∨ send_welcome_filter m = true →
  shrinks (user_sessions w) (user_sessions (handle_message E m w).2).
Proof.
  intros Hf. unfold handle_message.
  destruct (send_welcome_filter m).
  { apply (keeps_send_welcome shrinks shrinks_refl). }
  destruct Hf as [Hf|Hf]; [|done]. rewrite Hf.
  destruct (process_download_filter m).
  { apply (keeps_process_download shrinks shrinks_refl shrinks_trans shrinks_delete). }
  destruct (restart_flow_filter m).
  { apply (keeps_restart_flow shrinks shrinks_refl). }
  apply shrinks_refl.
Qed.

(** C10, as the code has it.  A message leaves a conversation with a
    session it did not have before only if its lower-cased text
    contains one of the two patterns; the conversation is then the
    sender's, and the session holds the text before the first [?],
    stripped, and the identifier the extractor returns for it, by
    whichever of its three branches. *)
Theorem session_created_by_link_message_only E m w c s :
  user_sessions (handle_message E m w).2 !! c = Some s →
  user_sessions w !! c ≠ Some s →
  handle_reel_url_filter m = true
  ∧ c = chat_id m
  ∧ parse_link m = Ok (url s, shortcode s).
Proof.
  intros Hafter Hbefore.
  destruct (handle_reel_url_filter m) eqn:Hf; cycle 1.
  { destruct Hbefore.
    eapply lookup_weaken; [exact Hafter|].
    apply other_handlers_shrink. rewrite Hf. by left. }
  destruct (send_welcome_filter m) eqn:Hw.
  { destruct Hbefore.
    eapply lookup_weaken; [exact Hafter|].
    apply other_handlers_shrink. by right. }
  unfold handle_message in Hafter. rewrite Hw, Hf in Hafter.
  destruct (parse_link m) as [[u code]|e] eqn:Hp.
  - rewrite (handle_reel_url_parsed E m w u code Hp) in Hafter.
    destruct (decide (chat_id m = c)) as [<-|Hne].
    + rewrite lookup_insert_eq in Hafter. injection Hafter as <-. done.
    + rewrite lookup_insert_ne in Hafter by done. done.
  - rewrite (handle_reel_url_rejected E m w e Hp) in Hafter. done.
Qed.

(** C10, as stated, fails: with the pattern after the [?], the handler
    takes the message, strips the query, and the extractor's third
    branch makes a session from the bare segment [abc]; with nothing
    after [/reel/], the segment is [reel] itself. *)
Lemma bare_segment_reaches_a_session :
  let m := {| chat_id := 7; text := "https://instagram.com/abc?x=instagram.com/reel/" |} in
  let m' := {| chat_id := 7; text := "https://instagram.com/reel/" |} in
  let path := fun u => match urllib.urlparse u with
                       | Ok p => Py.strip "/" (urllib.path p)
                       | Raise _ => ""
                       end in
  send_welcome_filter m = false
  ∧ handle_reel_url_filter m = true
  ∧ user_sessions (handle_message Scenario.all_well m Scenario.fresh).2 !! 7
    = Some {| url := "https://instagram.com/abc"; shortcode := "abc" |}
  ∧ path "https://instagram.com/abc" = "abc"
  ∧ Py.str_in "/reel/" "abc" = false
  ∧ Py.str_in "/p/" "abc" = false
  ∧ user_sessions (handle_message Scenario.all_well m' Scenario.fresh).2 !! 7
    = Some {| url := "https://instagram.com/reel/"; shortcode := "reel" |}.
Proof. vm_compute. repeat split. Qed.

Lemma session_created_by_link_message_only_witness :
  let m := {| chat_id := 7; text := "https://instagram.com/abc?x=instagram.com/reel/" |} in
  let s := {| url := "https://instagram.com/abc"; shortcode := "abc" |} in
  user_sessions (handle_message Scenario.all_well m Scenario.fresh).2 !! 7 = Some s
  ∧ user_sessions Scenario.fresh !! 7 ≠ Some s
  ∧ handle_reel_url_filter m = true
  ∧ 7 = chat_id m
  ∧ parse_link m = Ok (url s, shortcode s).
Proof.
  intros m s.
  assert (user_sessions (handle_message Scenario.all_well m Scenario.fresh).2 !! 7
          = Some s) as Hafter by (vm_compute; reflexivity).
  assert (user_sessions Scenario.fresh !! 7 ≠ Some s) as Hbefore
    by (vm_compute; discriminate).
  split; [exact Hafter|]. split; [exact Hbefore|].
  exact (session_created_by_link_message_only Scenario.all_well m Scenario.fresh 7 s
           Hafter Hbefore).
Defined.

(** ** The link extractor on the links it is written for *)

(** C1: what the code does on the example of the specification.  The
    query is stripped and the host accepted, but the path has lost its
    leading [/] to [strip('/')] before [/reel/] is looked for in it, so
    no branch matches: the extractor raises, the user is told the link
    is invalid, and no session is stored. *)
Theorem reel_link_is_rejected :
  let m := {| chat_id := 7; text := "https://instagram.com/reel/ABC123?utm=x" |} in
  handle_reel_url_filter m = true
  ∧ clean_url_of m = Ok "https://instagram.com/reel/ABC123"
  ∧ urllib.urlparse "https://instagram.com/reel/ABC123" =
      Ok {| urllib.scheme := "https"; urllib.netloc := "instagram.com";
            urllib.path := "/reel/ABC123"; urllib.params := "";
            urllib.query := ""; urllib.fragment := "" |}
  ∧ Py.strip "/" "/reel/ABC123" = "reel/ABC123"
  ∧ Py.str_in "/reel/" "reel/ABC123" = false
  ∧ extract_shortcode "https://instagram.com/reel/ABC123" =
      Raise (ValueError "Couldn't extract reel shortcode")
  ∧ handle_message Scenario.all_well m Scenario.fresh =
      (Ok tt,
       {| user_sessions := ∅; downloads := ∅;
          logged := ["URL handling error: Couldn't extract reel shortcode"];
          calls := [reply_to m
            "❌ Invalid Reel URL. Please send a valid public Instagram Reel link."] |}).
Proof. vm_compute. repeat split. Qed.

(** C3: what the code does on a host that only ends in the letters of
    the platform's domain.  The guard tests the end of the network
    location as text, so [notinstagram.com] passes it and an identifier
    is returned, also through the message interface. *)
Theorem foreign_host_is_accepted :
  let m := {| chat_id := 7; text := "https://notinstagram.com/reel/reel/ABC123" |} in
  (urllib.netloc <$> match urllib.urlparse "https://notinstagram.com/abc" with
                      | Ok p => Some p
                      | Raise _ => None
                      end) = Some "notinstagram.com"
  ∧ Py.endswith "notinstagram.com" "instagram.com" = true
  ∧ extract_shortcode "https://notinstagram.com/abc" = Ok "abc"
  ∧ user_sessions (handle_message Scenario.all_well m Scenario.fresh).2 !! 7 =
      Some {| url := "https://notinstagram.com/reel/reel/ABC123"; shortcode := "ABC123" |}.
Proof. vm_compute. repeat split. Qed.

(** X3.  The guard as the code has it: a link whose network location
    does not end in [instagram.com] as text is refused with
    [ValueError("Invalid Instagram URL")], whatever its path. *)
Lemma host_guard u p :
  urllib.urlparse u = Ok p →
  Py.endswith (urllib.netloc p) "instagram.com" = false →
  extract_shortcode u = Raise (ValueError "Invalid Instagram URL").
Proof.
  intros Hp Hend. unfold extract_shortcode, rbind. rewrite Hp.
  unfold Py.endswith_any. simpl existsb. rewrite Hend.
  assert (Py.endswith (urllib.netloc p) "www.instagram.com" = false) as ->; [|done].
  revert Hend. generalize (urllib.netloc p). intros s.
  induction s as [|a s IH]; [done|].
  cbn [Py.endswith]. intros Hend.
  apply orb_false_elim in Hend as [Heq Hrest].
  rewrite (IH Hrest), orb_false_r.
  apply String.eqb_neq. intros Hs.
  injection Hs as -> ->. vm_compute in Hrest. done.
Qed.

(** ** Links of the keyworded shapes *)

Lemma str_in_cons sub c r :
  Py.str_in sub (String c r) = Py.startswith (String c r) sub || Py.str_in sub r.
Proof. reflexivity. Qed.

Lemma slash_in_cons c r :
  Py.str_in "/" (String c r) = Ascii.eqb "/" c || Py.str_in "/" r.
Proof. rewrite str_in_cons. cbn [Py.startswith]. by rewrite andb_true_r. Qed.

(** A prefix with a slash puts a slash in the string. *)
Lemma startswith_slash p : ∀ s,
  Py.startswith s p = true → Py.str_in "/" p = true → Py.str_in "/" s = true.
Proof.
  induction p as [|a p IH]; intros s Hp Hslash; [done|].
  destruct s as [|b s]; [done|]. cbn [Py.startswith] in Hp.
  apply andb_prop in Hp as [Hab Hrest].
  apply Ascii.eqb_eq in Hab as <-.
  rewrite slash_in_cons in *.
  apply orb_prop in Hslash as [->|Hslash]; [done|].
  rewrite (IH s Hrest Hslash). apply orb_true_r.
Qed.

Lemma str_in_slash sub s :
  Py.str_in "/" sub = true → Py.str_in "/" s = false → Py.str_in sub s = false.
Proof.
  intros Hsub. induction s as [|c r IH]; intros Hs.
  - cbn [Py.str_in]. destruct (Py.startswith "" sub) eqn:Hp; [|done].
    by rewrite (startswith_slash sub "" Hp Hsub) in Hs.
  - rewrite str_in_cons.
    destruct (Py.startswith (String c r) sub) eqn:Hp.
    { by rewrite (startswith_slash sub _ Hp Hsub) in Hs. }
    rewrite slash_in_cons in Hs. apply orb_false_elim in Hs as [_ Hr].
    by rewrite (IH Hr).
Qed.

Lemma rstrip_no_slash s : Py.str_in "/" s = false → Py.rstrip "/" s = s.
Proof.
  induction s as [|c r IH]; intros Hs; [done|].
  rewrite slash_in_cons in Hs. apply orb_false_elim in Hs as [Hc Hr].
  cbn [Py.rstrip]. rewrite (IH Hr).
  assert (Py.char_in c "/" = false) as ->.
  { unfold Py.char_in. cbn [list_ascii_of_string existsb].
    rewrite Ascii.eqb_sym, Hc. done. }
  by rewrite andb_false_r.
Qed.

Lemma rstrip_app chars s t :
  Py.rstrip chars t = t → t ≠ "" → Py.rstrip chars (s ++ t) = s ++ t.
Proof.
  intros Ht Hne. induction s as [|a s IH]; [done|].
  change (String a s ++ t) with (String a (s ++ t)).
  cbn [Py.rstrip]. rewrite IH.
  destruct (s ++ t) eqn:Hst; [|done].
  destruct s; [done|discriminate].
Qed.

Lemma split_no_slash s : ∀ cur,
  Py.str_in "/" s = false → Py.split_from "/" 0 cur s = [cur ++ s].
Proof.
  induction s as [|c r IH]; intros cur Hs.
  - cbn [Py.split_from]. f_equal. induction cur as [|a cur IHc]; [done|].
    change (String a cur ++ "") with (String a (cur ++ "")). by rewrite <- IHc.
  - rewrite slash_in_cons in Hs. apply orb_false_elim in Hs as [Hc Hr].
    cbn [Py.split_from Py.startswith]. rewrite Hc. cbn [andb].
    rewrite (IH _ Hr). f_equal.
    induction cur as [|a cur IHc]; [done|].
    change (String a cur ++ String c "") with (String a (cur ++ String c "")).
    change (String a cur ++ String c r) with (String a (cur ++ String c r)).
    change (String a (cur ++ String c "") ++ r) with (String a ((cur ++ String c "") ++ r)).
    by rewrite IHc.
Qed.

Lemma startswith_no_slash p s :
  Py.str_in "/" p = true → Py.str_in "/" s = false → Py.startswith s p = false.
Proof.
  intros Hp Hs. destruct (Py.startswith s p) eqn:H; [|done].
  by rewrite (startswith_slash p s H Hp) in Hs.
Qed.

Lemma startswith_cons b s a p :
  Py.startswith (String b s) (String a p) = Ascii.eqb a b && Py.startswith s p.
Proof. reflexivity. Qed.

Lemma startswith_other c s a p :
  Ascii.eqb a c = false → Py.startswith (String c s) (String a p) = false.
Proof. intros H. by rewrite startswith_cons, H. Qed.

(** A pattern that opens with a slash is not found in a keyword, a
    slash and an identifier without a slash. *)
Ltac pattern_not_found Hs :=
  rewrite !str_in_cons;
  rewrite ?startswith_other by reflexivity;
  rewrite startswith_cons; change (Ascii.eqb "/" "/") with true;
  rewrite startswith_no_slash by (reflexivity || exact Hs);
  rewrite str_in_slash by (reflexivity || exact Hs);
  reflexivity.

Lemma split_from_cons sep cur c r :
  Py.split_from sep 0 cur (String c r) =
  if Py.startswith (String c r) sep
  then cur :: Py.split_from sep (String.length sep - 1) "" r
  else Py.split_from sep 0 (cur ++ String c "") r.
Proof. reflexivity. Qed.

(** The pieces of a keyword, a slash and an identifier without one. *)
Ltac two_pieces Hs :=
  unfold Py.split;
  repeat (rewrite split_from_cons, startswith_other by reflexivity);
  rewrite split_from_cons;
  change (Py.startswith (String "/" ?r) "/") with true; cbv iota;
  change (String.length "/" - 1)%nat with 0%nat;
  rewrite (split_no_slash _ "" Hs); reflexivity.

(** The canonical link of a reel: [/reel/] followed by the identifier. *)
Lemma reel_path_is_rejected id :
  Py.str_in "/" id = false → id ≠ "" →
  shortcode_of_path ("/reel/" ++ id) = Raise (ValueError "Couldn't extract reel shortcode").
Proof.
  intros Hs Hne. unfold shortcode_of_path, Py.strip.
  change (Py.lstrip "/" ("/reel/" ++ id)) with ("reel/" ++ id).
  rewrite (rstrip_app "/" "reel/" id (rstrip_no_slash id Hs) Hne).
  change ("reel/" ++ id)
    with (String "r" (String "e" (String "e" (String "l" (String "/" id))))).
  assert (Py.str_in "/reel/" (String "r" (String "e" (String "e" (String "l" (String "/" id)))))
          = false) as -> by pattern_not_found Hs.
  assert (Py.str_in "/p/" (String "r" (String "e" (String "e" (String "l" (String "/" id)))))
          = false) as -> by pattern_not_found Hs.
  assert (Py.split "/" (String "r" (String "e" (String "e" (String "l" (String "/" id)))))
          = ["reel"; id]) as -> by two_pieces Hs.
  reflexivity.
Qed.

(** The canonical link of a post: [/p/] followed by the identifier. *)
Lemma post_path_is_rejected id :
  Py.str_in "/" id = false → id ≠ "" →
  shortcode_of_path ("/p/" ++ id) = Raise (ValueError "Couldn't extract reel shortcode").
Proof.
  intros Hs Hne. unfold shortcode_of_path, Py.strip.
  change (Py.lstrip "/" ("/p/" ++ id)) with ("p/" ++ id).
  rewrite (rstrip_app "/" "p/" id (rstrip_no_slash id Hs) Hne).
  change ("p/" ++ id) with (String "p" (String "/" id)).
  assert (Py.str_in "/reel/" (String "p" (String "/" id)) = false) as ->
    by pattern_not_found Hs.
  assert (Py.str_in "/p/" (String "p" (String "/" id)) = false) as ->
    by pattern_not_found Hs.
  assert (Py.split "/" (String "p" (String "/" id)) = ["p"; id]) as ->
    by two_pieces Hs.
  reflexivity.
Qed.

(** X6.  Whatever the link, if its path is a keyword followed by an
    identifier ([/reel/<id>] or [/p/<id>], the identifier not empty
    and without a slash) the extractor does not return: the host is
    refused or, the leading slash being stripped before the keyword is
    looked for, no branch matches. *)
Lemma keyworded_links_are_rejected u p id :
  urllib.urlparse u = Ok p →
  urllib.path p = "/reel/" ++ id ∨ urllib.path p = "/p/" ++ id →
  Py.str_in "/" id = false → id ≠ "" →
  ∃ e, extract_shortcode u = Raise e.
Proof.
  intros Hp Hpath Hs Hne. unfold extract_shortcode, rbind. rewrite Hp.
  destruct (negb _); [eauto|].
  destruct Hpath as [-> | ->].
  - rewrite reel_path_is_rejected by done. eauto.
  - rewrite post_path_is_rejected by done. eauto.
Qed.

(** ** A fetch that leaves no video *)





(** The same attempt run. *)
Example missing_video_flow :
  let r := process_download Scenario.nothing_written Scenario.mp4 Scenario.pending in
  r.1 = Ok tt
  ∧ calls r.2 =
      [send_chat_action 7 "typing"; Post_from_shortcode "ABC123";
       download_post "ABC123" "downloads";
       reply_to Scenario.mp4 "❌ Error: Downloaded file not found"]
  ∧ logged r.2 = ["Download error: Downloaded file not found"].
Proof. vm_compute. repeat split. Qed.

(** ** A conversion that fails *)

(** [check=True]: a status other than 0 becomes [CalledProcessError]
    with the error output of the process. *)
Lemma nonzero_exit_raises E args w returncode stderr d' :
  ffmpeg E args (downloads w) = Exited returncode stderr d' →
  returncode ≠ 0 →
  (subprocess_run_check E args w).1 =
  Raise (CalledProcessError returncode stderr (strerror E (NonZeroExit args returncode))).
Proof.
  intros Hexit Hcode.
  unfold subprocess_run_check, bind, record, get_downloads, set_downloads.
  cbn [user_sessions downloads logged calls]. rewrite Hexit.
  cbn [user_sessions downloads logged calls].
  by apply Z.eqb_neq in Hcode as ->.
Qed.

(** X17.  When the attempt stops on a conversion failure whose error
    output is UTF-8 text, that text is logged as the diagnostic and the
    user is sent the conversion message, the last call of the
    handler. *)
Lemma conversion_failure_reported E m w w1 returncode stderr t :
  chat_id m ∈ dom (user_sessions w) →
  process_download_try E m w = (Raise (CalledProcessError returncode stderr t), w1) →
  Py.utf8_valid stderr = true →
  calls (process_download E m w).2 =
    (calls w1 ++ [reply_to m "❌ Audio conversion failed"])%list
  ∧ ("FFmpeg error: " ++ stderr)%string ∈ logged (process_download E m w).2.
Proof.
  intros Hin Htry Hutf. split.
  - erewrite caught by (done || reflexivity).
    unfold bind, lift, decode. rewrite Hutf. unfold logger_error.
    cbn [fst snd]. by rewrite calls_invoke.
  - rewrite (process_download_attempt E m w Hin).
    set (attempt := try_except _ _).
    destruct (finally_cleanup E attempt w) as (w' & Hclean & ->).
    destruct (cleanup_directory_run E (attempt w).2) as (w'' & Hrun & _ & _ & Hlog & _).
    rewrite Hclean in Hrun. injection Hrun as <-.
    cbn [snd]. rewrite Hlog. apply elem_of_app. left.
    subst attempt. unfold try_except. rewrite Htry.
    cbn [process_download_except].
    unfold bind, lift, decode. rewrite Hutf.
    unfold logger_error, invoke.
    cbn [user_sessions downloads logged calls].
    destruct (outcome E _); simpl;
      apply elem_of_app; right; by apply list_elem_of_singleton.
Qed.

(** C6: what the code does when the error output is not UTF-8 text.
    [e.stderr.decode()] raises inside the clause that caught the
    conversion failure, before the log line and before the reply: the
    handler ends on [UnicodeDecodeError], nothing is logged and no
    message is sent.  The cleanup still runs. *)
Theorem undecodable_stderr_silences_the_report :
  let E := Scenario.conversion_fails Scenario.not_utf8 in
  let r := process_download E Scenario.mp3 Scenario.littered in
  Py.utf8_valid Scenario.not_utf8 = false
  ∧ (process_download_try E Scenario.mp3 Scenario.littered).1 =
      Raise (CalledProcessError 1 Scenario.not_utf8
               ("Command '['ffmpeg', '-i', 'downloads/ABC123.mp4', '-q:a', '0', '-map', 'a', "
                ++ "'downloads/ABC123.mp3']' returned non-zero exit status 1."))
  ∧ r.1 = Raise (UnicodeDecodeError
            "'utf-8' codec can't decode byte 0xff in position 0: invalid start byte")
  ∧ calls r.2 =
      [send_chat_action 7 "typing"; Post_from_shortcode "ABC123";
       download_post "ABC123" "downloads";
       subprocess_run ["ffmpeg"; "-i"; "downloads/ABC123.mp4"; "-q:a"; "0";
                       "-map"; "a"; "downloads/ABC123.mp3"]]
  ∧ (reply_to Scenario.mp3 "❌ Audio conversion failed" ∉ calls r.2)
  ∧ logged r.2 =
      ["Failed to delete downloads/held.mp4: [Errno 13] Permission denied: 'downloads/held.mp4'"]
  ∧ map_to_list (downloads r.2) =
      [("cache", Scenario.folder); ("held.mp4", Scenario.locked)].
Proof.
  vm_compute. repeat split.
  intros H. repeat (apply elem_of_cons in H as [H|H]; [discriminate|]).
  by apply elem_of_nil in H.
Qed.

(** With an error output that decodes, the same run reports. *)
Example decodable_stderr_is_reported :
  let E := Scenario.conversion_fails "Output file is empty" in
  let r := process_download E Scenario.mp3 Scenario.pending in
  r.1 = Ok tt
  ∧ List.last (calls r.2) (send_chat_action 0 "") =
      reply_to Scenario.mp3 "❌ Audio conversion failed"
  ∧ logged r.2 = ["FFmpeg error: Output file is empty"]
  ∧ downloads r.2 = ∅.
Proof. vm_compute. repeat split. Qed.

(** ** The model of [urlparse] on sample links *)

Example urlparse_components :
  urllib.urlparse "HTTPS://user@Instagram.com:80/a/b;p?q=1#f" =
  Ok {| urllib.scheme := "https"; urllib.netloc := "user@Instagram.com:80";
        urllib.path := "/a/b"; urllib.params := "p";
        urllib.query := "q=1"; urllib.fragment := "f" |}.
Proof. reflexivity. Qed.

Example urlparse_without_scheme :
  urllib.urlparse "instagram.com/reel/ABC" =
  Ok {| urllib.scheme := ""; urllib.netloc := "";
        urllib.path := "instagram.com/reel/ABC"; urllib.params := "";
        urllib.query := ""; urllib.fragment := "" |}.
Proof. reflexivity. Qed.

Example urlparse_params_of_last_segment :
  urllib.urlparse "https://instagram.com/a;b/c;d" =
  Ok {| urllib.scheme := "https"; urllib.netloc := "instagram.com";
        urllib.path := "/a;b/c"; urllib.params := "d";
        urllib.query := ""; urllib.fragment := "" |}.
Proof. reflexivity. Qed.

Example urlparse_unbalanced_bracket :
  urllib.urlparse "https://[::1/a" = Raise (ValueError "Invalid IPv6 URL").
Proof. reflexivity. Qed.

(** ** The flows of the specification's example, on a link the
    extractor accepts *)

Example video_flow :
  let link := {| chat_id := 7; text := "https://instagram.com/reel/reel/ABC123?utm=x" |} in
  let r := (handle_message Scenario.all_well link ;;
            handle_message Scenario.all_well Scenario.mp4) Scenario.fresh in
  r.1 = Ok tt
  ∧ user_sessions r.2 = ∅
  ∧ downloads r.2 = ∅
  ∧ calls r.2 =
      [send_message 7 "Choose download format:" None
         (ReplyKeyboardMarkup true true ["MP4 🎥"; "MP3 🎵"]);
       send_chat_action 7 "typing"; Post_from_shortcode "ABC123";
       download_post "ABC123" "downloads";
       send_chat_action 7 "upload_video";
       send_video 7 "downloads/ABC123.mp4" "Here's your Instagram Reel 📹" true;
       send_message 7 "✅ Download complete!" None
         (ReplyKeyboardMarkup false true ["📥 Download Another"])].
Proof. vm_compute. repeat split. Qed.

Example audio_flow :
  let link := {| chat_id := 7; text := "https://instagram.com/reel/reel/ABC123?utm=x" |} in
  let r := (handle_message Scenario.all_well link ;;
            handle_message Scenario.all_well Scenario.mp3) Scenario.fresh in
  r.1 = Ok tt
  ∧ user_sessions r.2 = ∅
  ∧ downloads r.2 = ∅
  ∧ calls r.2 =
      [send_message 7 "Choose download format:" None
         (ReplyKeyboardMarkup true true ["MP4 🎥"; "MP3 🎵"]);
       send_chat_action 7 "typing"; Post_from_shortcode "ABC123";
       download_post "ABC123" "downloads";
       subprocess_run ["ffmpeg"; "-i"; "downloads/ABC123.mp4"; "-q:a"; "0";
                       "-map"; "a"; "downloads/ABC123.mp3"];
       send_chat_action 7 "upload_audio";
       send_audio 7 "downloads/ABC123.mp3" "Instagram Reel Audio";
       send_message 7 "✅ Download complete!" None
         (ReplyKeyboardMarkup false true ["📥 Download Another"])].
Proof. vm_compute. repeat split. Qed.

(** With the transport down the first call of the attempt raises; the
    generic clause catches it, its own reply raises in turn, and the
    cleanup has still run when the exception leaves the handler. *)
Example transport_down_flow :
  let r := process_download Scenario.transport_down Scenario.mp4 Scenario.littered in
  r.1 = Raise (Exception "A request to the Telegram API was unsuccessful.")
  ∧ calls r.2 =
      [send_chat_action 7 "typing";
       reply_to Scenario.mp4 "❌ Error: A request to the Telegram API was unsuccessful."]
  ∧ map_to_list (downloads r.2) =
      [("cache", Scenario.folder); ("held.mp4", Scenario.locked)]
  ∧ is_Some (user_sessions r.2 !! 7).
Proof. vm_compute. repeat split. eauto. Qed.

(** * Further properties *)

(** ** Pieces of a split *)

Lemma split_from_pieces sep s : ∀ skip cur, Py.split_from sep skip cur s ≠ [].
Proof.
  induction s as [|c r IH]; intros skip cur; [done|].
  cbn [Py.split_from]. destruct skip; [|apply IH].
  destruct (Py.startswith _ _); [done|apply IH].
Qed.

(** [sep in s] puts at least two pieces in [s.split(sep)], so the
    index [1] the extractor takes after that test is in range. *)
Lemma split_found sep s : ∀ cur,
  sep ≠ "" → Py.str_in sep s = true →
  ∃ x y rest, Py.split_from sep 0 cur s = x :: y :: rest.
Proof.
  induction s as [|c r IH]; intros cur Hsep Hin.
  - destruct sep; done.
  - rewrite split_from_cons. rewrite str_in_cons in Hin.
    destruct (Py.startswith (String c r) sep).
    + pose proof (split_from_pieces sep r (String.length sep - 1) "") as Hne.
      destruct (Py.split_from sep _ "" r) as [|y rest]; [done|]. eauto.
    + apply IH; done.
Qed.

Lemma no_slash_app s t :
  Py.str_in "/" s = false → Py.str_in "/" t = false → Py.str_in "/" (s ++ t) = false.
Proof.
  intros Hs Ht. induction s as [|a s IH]; [done|].
  change (String a s ++ t) with (String a (s ++ t)).
  rewrite slash_in_cons in *. apply orb_false_elim in Hs as [-> Hs].
  by rewrite IH.
Qed.

(** No piece of [s.split('/')] has a slash in it. *)
Lemma split_slash_pieces s : ∀ cur,
  Py.str_in "/" cur = false →
  Forall (fun piece => Py.str_in "/" piece = false) (Py.split_from "/" 0 cur s).
Proof.
  induction s as [|c r IH]; intros cur Hcur.
  - by apply Forall_singleton.
  - rewrite split_from_cons, startswith_cons.
    change (Py.startswith r "") with true. rewrite andb_true_r.
    destruct (Ascii.eqb "/" c) eqn:Hc.
    + apply Forall_cons. split; [done|]. by apply IH.
    + apply IH. apply no_slash_app; [done|].
      rewrite slash_in_cons, Hc. done.
Qed.

(** One piece only: there was no slash to split at. *)
Lemma split_one_piece s :
  length (Py.split "/" s) = 1%nat → Py.str_in "/" s = false.
Proof.
  intros Hlen. destruct (Py.str_in "/" s) eqn:Hin; [|done].
  destruct (split_found "/" s "" ltac:(done) Hin) as (x & y & rest & Hsplit).
  unfold Py.split in Hlen. by rewrite Hsplit in Hlen.
Qed.

(** ** What the extractor returns and raises *)

(** The piece after a keyword, up to the next slash. *)
Lemma after_keyword sep path r :
  sep ≠ "" → Py.str_in sep path = true →
  rbind (getitem (Py.split sep path) 1)
        (fun after => getitem (Py.split "/" after) 0) = r →
  ∃ id, r = Ok id ∧ Py.str_in "/" id = false.
Proof.
  intros Hsep Hin <-. unfold Py.split.
  destruct (split_found sep path "" Hsep Hin) as (x & after & rest & ->).
  cbn [getitem lookup list_lookup rbind].
  pose proof (split_slash_pieces after "" eq_refl) as Hall.
  destruct (Py.split_from "/" 0 "" after) as [|id pieces] eqn:Hsplit.
  { by destruct (split_from_pieces "/" after 0%nat ""). }
  exists id. split; [done|]. by apply Forall_cons in Hall as [? _].
Qed.

Lemma shortcode_of_path_cases path :
  (∃ id, shortcode_of_path path = Ok id ∧ Py.str_in "/" id = false)
  ∨ shortcode_of_path path = Raise (ValueError "Couldn't extract reel shortcode").
Proof.
  unfold shortcode_of_path. cbv zeta.
  destruct (Py.str_in "/reel/" _) eqn:Hreel.
  { left. by eapply (after_keyword "/reel/"). }
  destruct (Py.str_in "/p/" _) eqn:Hp.
  { left. by eapply (after_keyword "/p/"). }
  destruct (_ && _) eqn:Hbare; [|by right].
  left. eexists. split; [done|].
  apply andb_prop in Hbare as [Hlen _].
  apply split_one_piece. by apply Nat.eqb_eq.
Qed.

(** X1.  An identifier the extractor returns has no slash in it, so
    the name [<identifier>.mp3] the conversion is given is a plain
    entry name of the download directory. *)
Theorem shortcode_has_no_slash u id :
  extract_shortcode u = Ok id → Py.str_in "/" id = false.
Proof.
  unfold extract_shortcode, rbind.
  destruct (urllib.urlparse u) as [p|e]; [|done].
  destruct (negb _); [done|].
  destruct (shortcode_of_path_cases (urllib.path p)) as [(id' & -> & Hid)| ->].
  - by intros [= <-].
  - done.
Qed.

Lemma shortcode_has_no_slash_witness :
  extract_shortcode "https://www.instagram.com/someone/reel/ABC123/embed" = Ok "ABC123"
  ∧ Py.str_in "/" "ABC123" = false.
Proof.
  assert (extract_shortcode "https://www.instagram.com/someone/reel/ABC123/embed"
          = Ok "ABC123") as H by (vm_compute; reflexivity).
  split; [exact H|].
  exact (shortcode_has_no_slash
           "https://www.instagram.com/someone/reel/ABC123/embed" "ABC123" H).
Defined.




(** ** The links the extractor accepts *)

Lemma char_in_slash c : Py.char_in c "/" = Ascii.eqb "/" c.
Proof.
  unfold Py.char_in. cbn [list_ascii_of_string existsb].
  by rewrite orb_false_r, Ascii.eqb_sym.
Qed.

Lemma lstrip_no_slash s : Py.str_in "/" s = false → Py.lstrip "/" s = s.
Proof.
  destruct s as [|c r]; [done|]. rewrite slash_in_cons. intros Hs.
  apply orb_false_elim in Hs as [Hc _].
  cbn [Py.lstrip]. by rewrite char_in_slash, Hc.
Qed.

Lemma host_accepted netloc :
  Py.endswith netloc "instagram.com" = true →
  negb (Py.endswith_any netloc ["instagram.com"; "www.instagram.com"]) = false.
Proof. intros H. unfold Py.endswith_any. cbn [existsb]. by rewrite H. Qed.

(** A single segment is its own identifier. *)
Lemma bare_path seg :
  Py.str_in "/" seg = false → seg ≠ "" → shortcode_of_path ("/" ++ seg) = Ok seg.
Proof.
  intros Hs Hne. unfold shortcode_of_path, Py.strip.
  change ("/" ++ seg) with (String "/" seg).
  cbn [Py.lstrip]. change (Py.char_in "/" "/") with true. cbv iota.
  rewrite (lstrip_no_slash seg Hs), (rstrip_no_slash seg Hs).
  rewrite !str_in_slash by done.
  unfold Py.split. rewrite (split_no_slash seg "" Hs).
  destruct seg; done.
Qed.

(** X4.  On a host that ends in [instagram.com], a link whose path is
    one segment, not empty and without a slash, yields that segment as
    the identifier. *)
Theorem bare_segment_is_returned u p seg :
  urllib.urlparse u = Ok p →
  Py.endswith (urllib.netloc p) "instagram.com" = true →
  urllib.path p = "/" ++ seg →
  Py.str_in "/" seg = false → seg ≠ "" →
  extract_shortcode u = Ok seg.
Proof.
  intros Hp Hhost Hpath Hs Hne. unfold extract_shortcode, rbind.
  rewrite Hp, (host_accepted _ Hhost), Hpath. by apply bare_path.
Qed.

Lemma bare_segment_is_returned_witness :
  let p := {| urllib.scheme := "https"; urllib.netloc := "www.instagram.com";
              urllib.path := "/ABC123"; urllib.params := "";
              urllib.query := ""; urllib.fragment := "" |} in
  urllib.urlparse "https://www.instagram.com/ABC123" = Ok p
  ∧ Py.endswith (urllib.netloc p) "instagram.com" = true
  ∧ extract_shortcode "https://www.instagram.com/ABC123" = Ok "ABC123".
Proof.
  intros p.
  assert (urllib.urlparse "https://www.instagram.com/ABC123" = Ok p) as Hp
    by (vm_compute; reflexivity).
  assert (Py.endswith (urllib.netloc p) "instagram.com" = true) as Hhost
    by (vm_compute; reflexivity).
  split; [exact Hp|]. split; [exact Hhost|].
  refine (bare_segment_is_returned "https://www.instagram.com/ABC123" p "ABC123"
            Hp Hhost eq_refl eq_refl _).
  discriminate.
Defined.

(** A pattern that opens with a slash is looked for in vain before a
    text without a slash has been passed. *)
Lemma str_in_skip sub s t :
  Py.str_in "/" s = false → Py.str_in (String "/" sub) (s ++ t) = Py.str_in (String "/" sub) t.
Proof.
  intros Hs. induction s as [|a s IH]; [done|].
  change (String a s ++ t) with (String a (s ++ t)).
  rewrite slash_in_cons in Hs. apply orb_false_elim in Hs as [Ha Hs].
  rewrite str_in_cons, startswith_other by done. by apply IH.
Qed.

Lemma split_skip sub s t : ∀ cur,
  Py.str_in "/" s = false →
  Py.split_from (String "/" sub) 0 cur (s ++ t) =
  Py.split_from (String "/" sub) 0 (cur ++ s) t.
Proof.
  induction s as [|a s IH]; intros cur Hs.
  - f_equal. induction cur as [|b cur IHc]; [done|].
    change (String b cur ++ "") with (String b (cur ++ "")). by rewrite <- IHc.
  - change (String a s ++ t) with (String a (s ++ t)).
    rewrite slash_in_cons in Hs. apply orb_false_elim in Hs as [Ha Hs].
    rewrite split_from_cons, startswith_other by done.
    rewrite IH by done. f_equal.
    induction cur as [|b cur IHc]; [done|].
    change (String b cur ++ String a "") with (String b (cur ++ String a "")).
    change (String b cur ++ String a s) with (String b (cur ++ String a s)).
    change (String b (cur ++ String a "") ++ s)
      with (String b ((cur ++ String a "") ++ s)).
    by rewrite IHc.
Qed.

Lemma split_keyword_no_slash sub s cur :
  Py.str_in "/" s = false →
  Py.split_from (String "/" sub) 0 cur s = [cur ++ s].
Proof.
  intros Hs. revert cur. induction s as [|c r IH]; intros cur.
  - cbn [Py.split_from]. f_equal. induction cur as [|a cur IHc]; [done|].
    change (String a cur ++ "") with (String a (cur ++ "")). by rewrite <- IHc.
  - rewrite slash_in_cons in Hs. apply orb_false_elim in Hs as [Hc Hr].
    rewrite split_from_cons, startswith_other by done.
    rewrite (IH Hr). f_equal.
    induction cur as [|a cur IHc]; [done|].
    change (String a cur ++ String c "") with (String a (cur ++ String c "")).
    change (String a cur ++ String c r) with (String a (cur ++ String c r)).
    change (String a (cur ++ String c "") ++ r) with (String a ((cur ++ String c "") ++ r)).
    by rewrite IHc.
Qed.

(** A keyword between a first segment and an identifier. *)
Lemma reel_after_segment first id :
  Py.str_in "/" first = false → first ≠ "" →
  Py.str_in "/" id = false → id ≠ "" →
  shortcode_of_path ("/" ++ first ++ "/reel/" ++ id) = Ok id.
Proof.
  intros Hf Hfne Hs Hne. unfold shortcode_of_path, Py.strip.
  change ("/" ++ first ++ "/reel/" ++ id) with (String "/" (first ++ "/reel/" ++ id)).
  cbn [Py.lstrip]. change (Py.char_in "/" "/") with true. cbv iota.
  assert (Py.lstrip "/" (first ++ "/reel/" ++ id) = first ++ "/reel/" ++ id) as ->.
  { destruct first as [|c r]; [done|].
    change (String c r ++ "/reel/" ++ id) with (String c (r ++ "/reel/" ++ id)).
    rewrite slash_in_cons in Hf. apply orb_false_elim in Hf as [Hc _].
    cbn [Py.lstrip]. by rewrite char_in_slash, Hc. }
  rewrite (rstrip_app "/" first ("/reel/" ++ id)); cycle 1.
  { apply rstrip_app; [by apply rstrip_no_slash|done]. }
  { done. }
  rewrite (str_in_skip "reel/" first _ Hf).
  change (Py.str_in "/reel/" ("/reel/" ++ id)) with true. cbv iota.
  unfold Py.split. rewrite (split_skip "reel/" first _ "" Hf).
  change ("/reel/" ++ id)
    with (String "/" (String "r" (String "e" (String "e" (String "l" (String "/" id)))))).
  rewrite split_from_cons.
  change (Py.startswith (String "/" (String "r" (String "e" (String "e"
            (String "l" (String "/" id)))))) "/reel/") with true.
  cbv iota. cbn [Py.split_from String.length Nat.sub].
  rewrite (split_keyword_no_slash "reel/" id "" Hs).
  cbn [getitem lookup list_lookup rbind].
  change ("" ++ id) with id. by rewrite (split_no_slash id "" Hs).
Qed.

(** The same with the keyword of a post; [/reel/] is looked for first
    and not found. *)
Lemma post_after_segment first id :
  Py.str_in "/" first = false → first ≠ "" →
  Py.str_in "/" id = false → id ≠ "" →
  shortcode_of_path ("/" ++ first ++ "/p/" ++ id) = Ok id.
Proof.
  intros Hf Hfne Hs Hne. unfold shortcode_of_path, Py.strip.
  change ("/" ++ first ++ "/p/" ++ id) with (String "/" (first ++ "/p/" ++ id)).
  cbn [Py.lstrip]. change (Py.char_in "/" "/") with true. cbv iota.
  assert (Py.lstrip "/" (first ++ "/p/" ++ id) = first ++ "/p/" ++ id) as ->.
  { destruct first as [|c r]; [done|].
    change (String c r ++ "/p/" ++ id) with (String c (r ++ "/p/" ++ id)).
    rewrite slash_in_cons in Hf. apply orb_false_elim in Hf as [Hc _].
    cbn [Py.lstrip]. by rewrite char_in_slash, Hc. }
  rewrite (rstrip_app "/" first ("/p/" ++ id)); cycle 1.
  { apply rstrip_app; [by apply rstrip_no_slash|done]. }
  { done. }
  rewrite (str_in_skip "reel/" first _ Hf).
  change ("/p/" ++ id) with (String "/" (String "p" (String "/" id))).
  assert (Py.str_in "/reel/" (String "/" (String "p" (String "/" id))) = false) as ->.
  { rewrite str_in_cons, startswith_cons, (startswith_other "p") by reflexivity.
    rewrite andb_false_r. cbn [orb]. pattern_not_found Hs. }
  rewrite (str_in_skip "p/" first _ Hf).
  change (Py.str_in "/p/" (String "/" (String "p" (String "/" id)))) with true.
  cbv iota.
  unfold Py.split. rewrite (split_skip "p/" first _ "" Hf).
  rewrite split_from_cons.
  change (Py.startswith (String "/" (String "p" (String "/" id))) "/p/") with true.
  cbv iota. cbn [Py.split_from String.length Nat.sub].
  rewrite (split_keyword_no_slash "p/" id "" Hs).
  cbn [getitem lookup list_lookup rbind].
  change ("" ++ id) with id. by rewrite (split_no_slash id "" Hs).
Qed.

(** X5.  On a host that ends in [instagram.com], a link whose path is
    a first segment, the keyword [reel] or [p], and an identifier
    (segments not empty and without a slash) yields the identifier. *)
Theorem keyword_after_segment_is_accepted u p first id :
  urllib.urlparse u = Ok p →
  Py.endswith (urllib.netloc p) "instagram.com" = true →
  urllib.path p = "/" ++ first ++ "/reel/" ++ id
  ∨ urllib.path p = "/" ++ first ++ "/p/" ++ id →
  Py.str_in "/" first = false → first ≠ "" →
  Py.str_in "/" id = false → id ≠ "" →
  extract_shortcode u = Ok id.
Proof.
  intros Hp Hhost Hpath Hf Hfne Hs Hne. unfold extract_shortcode, rbind.
  rewrite Hp, (host_accepted _ Hhost).
  destruct Hpath as [-> | ->].
  - by apply reel_after_segment.
  - by apply post_after_segment.
Qed.

Lemma keyword_after_segment_is_accepted_witness :
  let p := {| urllib.scheme := "https"; urllib.netloc := "www.instagram.com";
              urllib.path := "/someone/reel/ABC123"; urllib.params := "";
              urllib.query := ""; urllib.fragment := "" |} in
  urllib.urlparse "https://www.instagram.com/someone/reel/ABC123" = Ok p
  ∧ Py.endswith (urllib.netloc p) "instagram.com" = true
  ∧ extract_shortcode "https://www.instagram.com/someone/reel/ABC123" = Ok "ABC123".
Proof.
  intros p.
  assert (urllib.urlparse "https://www.instagram.com/someone/reel/ABC123" = Ok p) as Hp
    by (vm_compute; reflexivity).
  assert (Py.endswith (urllib.netloc p) "instagram.com" = true) as Hhost
    by (vm_compute; reflexivity).
  split; [exact Hp|]. split; [exact Hhost|].
  refine (keyword_after_segment_is_accepted
            "https://www.instagram.com/someone/reel/ABC123" p "someone" "ABC123"
            Hp Hhost (or_introl eq_refl) eq_refl _ eq_refl _); discriminate.
Defined.

(** ** The calls a computation makes *)

Section Calls.

Variable P : call → Prop.

Lemma emits_nothing {A} (m : M A) :
  (∀ w, calls (m w).2 = calls w) → emits P m.
Proof. intros H w. exists []. rewrite H, app_nil_r. by split. Qed.

Lemma emits_ret {A} (a : A) : emits P (ret a).
Proof. by apply emits_nothing. Qed.

Lemma emits_raise {A} (e : exn) : emits P (@raise A e).
Proof. by apply emits_nothing. Qed.

Lemma emits_lift {A} (r : result A) : emits P (lift r).
Proof. by apply emits_nothing. Qed.

Lemma emits_get_sessions : emits P get_sessions.
Proof. by apply emits_nothing. Qed.

Lemma emits_set_sessions s : emits P (set_sessions s).
Proof. by apply emits_nothing. Qed.

Lemma emits_get_downloads : emits P get_downloads.
Proof. by apply emits_nothing. Qed.

Lemma emits_set_downloads d : emits P (set_downloads d).
Proof. by apply emits_nothing. Qed.

Lemma emits_logger_error line : emits P (logger_error line).
Proof. by apply emits_nothing. Qed.

Lemma emits_record c : P c → emits P (record c).
Proof. intros Hc w. exists [c]. split; [done|]. by apply Forall_singleton. Qed.

Lemma emits_invoke E c : P c → emits P (invoke E c).
Proof.
  intros Hc w. exists [c]. split; [|by apply Forall_singleton].
  unfold invoke. by destruct (outcome E c).
Qed.

Lemma emits_bind {A B} (m : M A) (k : A → M B) :
  emits P m → (∀ a, emits P (k a)) → emits P (bind m k).
Proof.
  intros Hm Hk w. unfold bind. destruct (Hm w) as (new & Hnew & HP).
  destruct (m w) as [[a|e] w1]; simpl in *; [|eauto].
  destruct (Hk a w1) as (new' & Hnew' & HP').
  exists (new ++ new')%list. rewrite Hnew', Hnew, app_assoc.
  split; [done|]. by apply Forall_app.
Qed.

Lemma emits_try_except {A} (body : M A) (handler : exn → option (M A)) :
  emits P body → (∀ e h, handler e = Some h → emits P h) →
  emits P (try_except body handler).
Proof.
  intros Hb Hh w. unfold try_except. destruct (Hb w) as (new & Hnew & HP).
  destruct (body w) as [[a|e] w1]; simpl in *; [eauto|].
  destruct (handler e) as [h|] eqn:He; simpl; [|eauto].
  destruct (Hh e h He w1) as (new' & Hnew' & HP').
  exists (new ++ new')%list. rewrite Hnew', Hnew, app_assoc.
  split; [done|]. by apply Forall_app.
Qed.

Lemma emits_try_finally {A} (body : M A) (final : M unit) :
  emits P body → emits P final → emits P (try_finally body final).
Proof.
  intros Hb Hf w. unfold try_finally. destruct (Hb w) as (new & Hnew & HP).
  destruct (body w) as [r w1]. destruct (Hf w1) as (new' & Hnew' & HP').
  exists (new ++ new')%list. simpl in *.
  destruct (final w1) as [[[]|e] w2]; simpl in *;
    rewrite Hnew', Hnew, app_assoc; (split; [done|]); by apply Forall_app.
Qed.

Lemma emits_except_Exception {A} (h : exn → M A) e k :
  (∀ e, emits P (h e)) → except_Exception h e = Some k → emits P k.
Proof. unfold except_Exception. intros Hh. case_match; naive_solver. Qed.

Lemma emits_for_each {A} (body : A → M unit) l :
  (∀ a, emits P (body a)) → emits P (for_each body l).
Proof.
  intros Hb. induction l as [|a l IH]; simpl.
  - apply emits_ret.
  - apply emits_bind; auto.
Qed.

(** Goes through a computation; the calls it meets are left to show. *)
Ltac emits_step :=
  match goal with
  | |- emits P (bind _ _) => apply emits_bind; [| intros ?]
  | |- emits P (if ?b then _ else _) => destruct b
  | |- emits P (match ?x with _ => _ end) => destruct x
  | |- emits P (for_each _ _) => apply emits_for_each; intros ?
  | |- emits P (record _) => apply emits_record
  | |- emits P (invoke _ _) => apply emits_invoke
  | |- emits P _ =>
      first [ apply emits_ret | apply emits_raise | apply emits_lift
            | apply emits_get_sessions | apply emits_set_sessions
            | apply emits_get_downloads | apply emits_set_downloads
            | apply emits_logger_error ]
  end.

Lemma emits_os_unlink E path : emits P (os_unlink E path).
Proof. unfold os_unlink. repeat emits_step. Qed.

Lemma emits_with_open_rb {A} E path (body : M A) :
  emits P body → emits P (with_open_rb E path body).
Proof. intros Hb. unfold with_open_rb. repeat emits_step; auto. Qed.

Lemma emits_cleanup_directory E : emits P (cleanup_directory E).
Proof.
  apply emits_nothing. intros w.
  destruct (cleanup_directory_run E w) as (w' & Hrun & _ & Hcalls & _).
  by rewrite Hrun.
Qed.

Lemma emits_loader_download_post E code :
  P (download_post code DOWNLOAD_DIR) → emits P (loader_download_post E code).
Proof. intros Hc. unfold loader_download_post. repeat emits_step. done. Qed.

Lemma emits_subprocess_run_check E args :
  P (subprocess_run args) → emits P (subprocess_run_check E args).
Proof. intros Hc. unfold subprocess_run_check. repeat emits_step. done. Qed.

End Calls.

(** Goes through a computation; the calls it meets are left to show. *)
Ltac emits_step :=
  match goal with
  | |- emits _ (bind _ _) => apply emits_bind; [| intros ?]
  | |- emits _ (if ?b then _ else _) => destruct b
  | |- emits _ (match ?x with _ => _ end) => destruct x
  | |- emits _ (record _) => apply emits_record
  | |- emits _ (invoke _ _) => apply emits_invoke
  | |- emits _ (os_unlink _ _) => apply emits_os_unlink
  | |- emits _ (os_remove _ _) => apply emits_os_unlink
  | |- emits _ (with_open_rb _ _ _) => apply emits_with_open_rb
  | |- emits _ (loader_download_post _ _) => apply emits_loader_download_post
  | |- emits _ (subprocess_run_check _ _) => apply emits_subprocess_run_check
  | |- emits _ (cleanup_directory _) => apply emits_cleanup_directory
  | |- emits _ _ =>
      first [ apply emits_ret | apply emits_raise | apply emits_lift
            | apply emits_get_sessions | apply emits_set_sessions
            | apply emits_get_downloads | apply emits_set_downloads
            | apply emits_logger_error ]
  end.

(** The clauses of [process_download] make one call, the reply. *)
Lemma emits_process_download_except P E m e h :
  (∀ body, P (reply_to m body)) →
  process_download_except E m e = Some h → emits P h.
Proof.
  intros HP. unfold process_download_except.
  destruct e;
    try (apply emits_except_Exception; intros e'; repeat emits_step; apply HP);
    intros [= <-]; repeat emits_step; apply HP.
Qed.

Lemma emits_handle_reel_url P E m :
  (∀ body markup, P (send_message (chat_id m) body None markup)) →
  (∀ body, P (reply_to m body)) →
  emits P (handle_reel_url E m).
Proof.
  intros Hsend Hreply. unfold handle_reel_url. apply emits_try_except.
  - repeat emits_step. apply Hsend.
  - intros e h. apply emits_except_Exception. intros e'.
    repeat emits_step. apply Hreply.
Qed.

Lemma emits_process_download_finish P E m :
  (∀ body markup, P (send_message (chat_id m) body None markup)) →
  emits P (process_download_finish E m).
Proof. intros Hsend. unfold process_download_finish. repeat emits_step. apply Hsend. Qed.

(** X9.  Every call made while a message is handled goes to the
    conversation the message came from, or to no conversation (the
    retrieval client, the conversion process): no text, indicator or
    file is ever sent to another conversation. *)
Theorem calls_go_to_the_sender E m :
  emits (addressed_to (chat_id m)) (handle_message E m).
Proof.
  unfold handle_message.
  destruct (send_welcome_filter m); [by apply emits_invoke|].
  destruct (handle_reel_url_filter m); [by apply emits_handle_reel_url|].
  destruct (process_download_filter m); cycle 1.
  { destruct (restart_flow_filter m); [by apply emits_invoke|apply emits_ret]. }
  unfold process_download. apply emits_bind; [apply emits_get_sessions|].
  intros sessions. case_decide; [|by apply emits_invoke].
  apply emits_try_finally; [|apply emits_cleanup_directory].
  apply emits_try_except; [|intros e h; by apply emits_process_download_except].
  unfold process_download_try.
  apply emits_bind; [|intros ?; by apply emits_process_download_finish].
  unfold process_download_deliver. cbv zeta.
  repeat emits_step; done.
Qed.

(** X11.  An attempt follows one format only: when the reply contains
    [MP4], it neither starts the conversion nor sends an audio file or
    the audio indicator; otherwise it neither sends a video nor the
    video indicator. *)
Theorem one_format_per_attempt E m :
  emits (fun c => if Py.str_in "MP4" (text m) then ¬ audio_only c else ¬ video_only c)
        (process_download E m).
Proof.
  unfold process_download. apply emits_bind; [apply emits_get_sessions|].
  intros sessions. case_decide; [|apply emits_invoke; destruct (Py.str_in _ _); simpl; tauto].
  apply emits_try_finally; [|apply emits_cleanup_directory].
  apply emits_try_except;
    [|intros e h; apply emits_process_download_except; intros;
      destruct (Py.str_in _ _); simpl; tauto].
  unfold process_download_try.
  apply emits_bind;
    [|intros ?; apply emits_process_download_finish; intros;
      destruct (Py.str_in _ _); simpl; tauto].
  unfold process_download_deliver. cbv zeta.
  destruct (Py.str_in "MP4" (text m)).
  - change (String.eqb "video" "video") with true. cbv iota.
    repeat emits_step; simpl; tauto.
  - change (String.eqb "audio" "video") with false. cbv iota.
    repeat emits_step; simpl; tauto.
Qed.

(** X10.  A message that is not one of the two format labels is
    answered with text alone: it starts no fetch, no conversion and no
    delivery. *)
Theorem only_a_format_reply_fetches E m :
  process_download_filter m = false → emits is_text (handle_message E m).
Proof.
  intros Hf. unfold handle_message. rewrite Hf.
  destruct (send_welcome_filter m); [by apply emits_invoke|].
  destruct (handle_reel_url_filter m); [by apply emits_handle_reel_url|].
  destruct (restart_flow_filter m); [by apply emits_invoke|apply emits_ret].
Qed.

Lemma only_a_format_reply_fetches_witness :
  let m := {| chat_id := 7; text := "https://www.instagram.com/someone/reel/ABC123" |} in
  process_download_filter m = false
  ∧ emits is_text (handle_message Scenario.all_well m).
Proof.
  intros m.
  assert (process_download_filter m = false) as H by (vm_compute; reflexivity).
  split; [exact H|]. exact (only_a_format_reply_fetches Scenario.all_well m H).
Defined.

(** ** The sessions across handlers *)

(** X7.  A link that parses replaces the sender's session, whatever it
    was, by the new link and identifier, also when sending the keyboard
    fails, and leaves the session of every other conversation as it
    was. *)
Theorem link_overwrites_senders_session E m w u code :
  parse_link m = Ok (u, code) →
  let after := user_sessions (handle_reel_url E m w).2 in
  after !! chat_id m = Some {| url := u; shortcode := code |}
  ∧ ∀ c, c ≠ chat_id m → after !! c = user_sessions w !! c.
Proof.
  intros Hp after. subst after. rewrite (handle_reel_url_parsed E m w u code Hp).
  split; [apply lookup_insert_eq|].
  intros c Hc. by apply lookup_insert_ne.
Qed.

Lemma link_overwrites_senders_session_witness :
  let m := {| chat_id := 7; text := "https://www.instagram.com/someone/reel/XYZ789?igsh=1" |} in
  parse_link m = Ok ("https://www.instagram.com/someone/reel/XYZ789", "XYZ789")
  ∧ user_sessions (handle_reel_url Scenario.transport_down m Scenario.pending).2 !! 7
    = Some {| url := "https://www.instagram.com/someone/reel/XYZ789";
              shortcode := "XYZ789" |}.
Proof.
  intros m.
  assert (parse_link m = Ok ("https://www.instagram.com/someone/reel/XYZ789", "XYZ789"))
    as H by (vm_compute; reflexivity).
  split; [exact H|].
  exact (proj1 (link_overwrites_senders_session Scenario.transport_down m
                  Scenario.pending _ _ H)).
Defined.

(** X8.  No error of the parsing leaves the link handler: what it
    raises, if anything, is what a call to the transport raised; with
    a transport that does not raise it returns. *)
Theorem link_handler_raises_with_the_transport_only E m w e :
  (handle_reel_url E m w).1 = Raise e → ∃ c, is_text c ∧ outcome E c = Some e.
Proof.
  destruct (parse_link m) as [[u code]|e'] eqn:Hp.
  - unfold parse_link, rbind in Hp.
    destruct (clean_url_of m) as [u'|] eqn:Hu; [|done].
    destruct (extract_shortcode u') as [c'|] eqn:Hc; [|done].
    injection Hp as -> ->.
    unfold handle_reel_url, try_except, bind, lift. rewrite Hu, Hc.
    unfold get_sessions, set_sessions, invoke, except_Exception, logger_error.
    cbn [user_sessions downloads logged calls].
    destruct (outcome E (send_message _ _ _ _)) as [e1|] eqn:H1; [|done].
    destruct (is_Exception e1).
    + cbn [user_sessions downloads logged calls].
      destruct (outcome E (reply_to _ _)) as [e2|] eqn:H2; [|done].
      intros [= <-]. eexists. split; [|exact H2]. done.
    + intros [= <-]. eexists. split; [|exact H1]. done.
  - rewrite (handle_reel_url_rejected E m w e' Hp). cbn [fst].
    destruct (outcome E (reply_to _ _)) as [e2|] eqn:H2; [|done].
    intros [= <-]. eexists. split; [|exact H2]. done.
Qed.

Lemma link_handler_raises_with_the_transport_only_witness :
  let m := {| chat_id := 7; text := "https://example.com/reel/ABC123" |} in
  let e := Exception "A request to the Telegram API was unsuccessful." in
  (handle_reel_url Scenario.transport_down m Scenario.fresh).1 = Raise e
  ∧ ∃ c, is_text c ∧ outcome Scenario.transport_down c = Some e.
Proof.
  intros m e.
  assert ((handle_reel_url Scenario.transport_down m Scenario.fresh).1 = Raise e)
    as H by (vm_compute; reflexivity).
  split; [exact H|].
  exact (link_handler_raises_with_the_transport_only Scenario.transport_down m
           Scenario.fresh e H).
Defined.

Lemma no_session_reply E m w :
  user_sessions w !! chat_id m = None →
  ∃ r, process_download E m w =
       (r, {| user_sessions := user_sessions w; downloads := downloads w;
              logged := logged w;
              calls := calls w ++ [reply_to m "⚠ Please send a Reel link first"] |}).
Proof.
  intros Hno. unfold process_download, bind, get_sessions.
  rewrite decide_False by (by apply not_elem_of_dom). unfold invoke.
  destruct (outcome E _); eauto.
Qed.

(** The sessions after the [try] and its clauses. *)
Lemma try_sessions E m w :
  let after := user_sessions
    (try_except (process_download_try E m) (process_download_except E m) w).2 in
  (after = user_sessions w ∧ ∃ e w1, process_download_deliver E m w = (Raise e, w1))
  ∨ (after = delete (chat_id m) (user_sessions w)
     ∧ ∃ w1, process_download_deliver E m w = (Ok tt, w1)).
Proof.
  unfold try_except, process_download_try, bind.
  pose proof (deliver_sessions E m w) as Hd.
  destruct (process_download_deliver E m w) as [[[]|e] w2]; simpl in Hd.
  - right. split; [|eauto].
    pose proof (finish_sessions E m w2) as Hf. rewrite Hd in Hf.
    destruct (process_download_finish E m w2) as [[[]|e] w3]; simpl in *; [done|].
    destruct (process_download_except E m e) as [h|] eqn:Hh; simpl; [|done].
    by rewrite (except_sessions E m e h w3 Hh).
  - left. split; [|eauto].
    destruct (process_download_except E m e) as [h|] eqn:Hh; simpl; [|done].
    by rewrite (except_sessions E m e h w2 Hh).
Qed.

(** X12.  A format reply adds no session and changes none: the
    sessions of the other conversations are as before, and the
    sender's is as before or gone. *)
Theorem format_reply_only_drops_senders_session E m w :
  let after := user_sessions (process_download E m w).2 in
  (∀ c, c ≠ chat_id m → after !! c = user_sessions w !! c)
  ∧ (after !! chat_id m = user_sessions w !! chat_id m ∨ after !! chat_id m = None).
Proof.
  intros after. subst after.
  destruct (decide (chat_id m ∈ dom (user_sessions w))) as [Hin|Hno].
  - rewrite (attempt_sessions E m w Hin).
    destruct (try_sessions E m w) as [[-> _]|[-> _]].
    + split; [done|by left].
    + split; [intros c Hc; by rewrite lookup_delete_ne|].
      right. apply lookup_delete_eq.
  - apply not_elem_of_dom in Hno.
    destruct (no_session_reply E m w Hno) as [r ->]. simpl. split; [done|by left].
Qed.

(** X13.  Once an attempt has delivered and removed its files, the
    sender has no session: the same format reply sent again is answered
    with the precondition message and starts nothing. *)
Theorem second_reply_after_delivery E E' m w w1 :
  chat_id m ∈ dom (user_sessions w) →
  process_download_deliver E m w = (Ok tt, w1) →
  let w' := (process_download E m w).2 in
  ∃ r, process_download E' m w' =
       (r, {| user_sessions := user_sessions w'; downloads := downloads w';
              logged := logged w';
              calls := calls w' ++ [reply_to m "⚠ Please send a Reel link first"] |}).
Proof.
  intros Hin Hd w'. apply no_session_reply. subst w'.
  rewrite (attempt_sessions E m w Hin).
  destruct (try_sessions E m w) as [[_ (e & w2 & He)]|[-> _]].
  - by rewrite Hd in He.
  - apply lookup_delete_eq.
Qed.

Lemma second_reply_after_delivery_witness :
  let w' := (process_download Scenario.all_well Scenario.mp4 Scenario.pending).2 in
  (chat_id Scenario.mp4 ∈ dom (user_sessions Scenario.pending))
  ∧ (∃ w1, process_download_deliver Scenario.all_well Scenario.mp4 Scenario.pending
           = (Ok tt, w1))
  ∧ (∃ r, process_download Scenario.unavailable Scenario.mp4 w' =
          (r, {| user_sessions := user_sessions w'; downloads := downloads w';
                 logged := logged w';
                 calls := calls w' ++
                   [reply_to Scenario.mp4 "⚠ Please send a Reel link first"] |})).
Proof.
  intros w'.
  assert (chat_id Scenario.mp4 ∈ dom (user_sessions Scenario.pending)) as H.
  { simpl. rewrite dom_singleton_L. by apply elem_of_singleton. }
  assert (∃ w1, process_download_deliver Scenario.all_well Scenario.mp4 Scenario.pending
                = (Ok tt, w1)) as Hrun.
  { eexists. vm_compute. reflexivity. }
  split; [exact H|]. split; [exact Hrun|].
  destruct Hrun as [w1 Hw1].
  exact (second_reply_after_delivery Scenario.all_well Scenario.unavailable
           Scenario.mp4 Scenario.pending w1 H Hw1).
Defined.

(** The first call of a computation. *)
Lemma starts_with_extend c (w w1 w2 : world) new :
  (∃ rest, calls w1 = (calls w ++ c :: rest)%list) →
  calls w2 = (calls w1 ++ new)%list →
  ∃ rest, calls w2 = (calls w ++ c :: rest)%list.
Proof.
  intros [rest Hrest] ->. exists (rest ++ new)%list.
  by rewrite Hrest, <- app_assoc.
Qed.

Lemma starts_with_invoke E c : starts_with c (invoke E c).
Proof. intros w. exists []. unfold invoke. by destruct (outcome E c). Qed.

Lemma starts_with_bind {A B} c (m : M A) (k : A → M B) :
  starts_with c m → (∀ a, emits (fun _ => True) (k a)) → starts_with c (bind m k).
Proof.
  intros Hm Hk w. unfold bind. specialize (Hm w).
  destruct (m w) as [[a|e] w1]; simpl in *; [|done].
  destruct (Hk a w1) as (new & Hnew & _).
  by eapply starts_with_extend.
Qed.

Lemma starts_with_try_except {A} c (body : M A) (handler : exn → option (M A)) :
  starts_with c body →
  (∀ e h, handler e = Some h → emits (fun _ => True) h) →
  starts_with c (try_except body handler).
Proof.
  intros Hb Hh w. unfold try_except. specialize (Hb w).
  destruct (body w) as [[a|e] w1]; simpl in *; [done|].
  destruct (handler e) as [h|] eqn:He; simpl; [|done].
  destruct (Hh e h He w1) as (new & Hnew & _).
  by eapply starts_with_extend.
Qed.

Lemma starts_with_try_finally {A} c (body : M A) (final : M unit) :
  starts_with c body → emits (fun _ => True) final →
  starts_with c (try_finally body final).
Proof.
  intros Hb Hf w. unfold try_finally. specialize (Hb w).
  destruct (body w) as [r w1]. destruct (Hf w1) as (new & Hnew & _).
  simpl in *. destruct (final w1) as [[[]|e] w2]; simpl in *;
    by eapply starts_with_extend.
Qed.

(** An attempt opens with the typing indicator. *)
Lemma attempt_starts_typing E m w :
  chat_id m ∈ dom (user_sessions w) →
  ∃ rest, calls (process_download E m w).2 =
          (calls w ++ send_chat_action (chat_id m) "typing" :: rest)%list.
Proof.
  intros Hin. rewrite (process_download_attempt E m w Hin).
  apply starts_with_try_finally; [|apply emits_cleanup_directory].
  apply starts_with_try_except;
    [|intros e h; by apply emits_process_download_except].
  unfold process_download_try.
  apply starts_with_bind; [|intros ?; by apply emits_process_download_finish].
  unfold process_download_deliver. cbv zeta.
  apply starts_with_bind; [apply starts_with_invoke|].
  intros ?. repeat emits_step; done.
Qed.

(** X14.  After an attempt that stopped on an error before the files
    were removed, the sender still has the session: a format reply sent
    again starts a new attempt, which opens with the typing
    indicator. *)
Theorem retry_after_failure E E' m w e w1 :
  chat_id m ∈ dom (user_sessions w) →
  process_download_deliver E m w = (Raise e, w1) →
  let w' := (process_download E m w).2 in
  user_sessions w' !! chat_id m = user_sessions w !! chat_id m
  ∧ ∃ rest, calls (process_download E' m w').2 =
            (calls w' ++ send_chat_action (chat_id m) "typing" :: rest)%list.
Proof.
  intros Hin Hd w'.
  assert (user_sessions w' = user_sessions w) as Hs.
  { subst w'. rewrite (attempt_sessions E m w Hin).
    destruct (try_sessions E m w) as [[-> _]|[_ (w2 & Hok)]]; [done|].
    by rewrite Hd in Hok. }
  split; [by rewrite Hs|].
  apply attempt_starts_typing. by rewrite Hs.
Qed.

Lemma retry_after_failure_witness :
  (chat_id Scenario.mp4 ∈ dom (user_sessions Scenario.pending))
  ∧ (∃ w1, process_download_deliver Scenario.unavailable Scenario.mp4 Scenario.pending
           = (Raise (BadResponseException "Fetching Post metadata failed."), w1))
  ∧ user_sessions (process_download Scenario.unavailable Scenario.mp4 Scenario.pending).2
      !! chat_id Scenario.mp4
    = user_sessions Scenario.pending !! chat_id Scenario.mp4.
Proof.
  assert (chat_id Scenario.mp4 ∈ dom (user_sessions Scenario.pending)) as H.
  { simpl. rewrite dom_singleton_L. by apply elem_of_singleton. }
  assert (∃ w1, process_download_deliver Scenario.unavailable Scenario.mp4
                  Scenario.pending
                = (Raise (BadResponseException "Fetching Post metadata failed."), w1))
    as Hrun.
  { eexists. vm_compute. reflexivity. }
  split; [exact H|]. split; [exact Hrun|].
  destruct Hrun as [w1 Hw1].
  exact (proj1 (retry_after_failure Scenario.unavailable Scenario.all_well
                  Scenario.mp4 Scenario.pending _ w1 H Hw1)).
Defined.

(** ** An attempt that succeeds *)

Lemma matching_video_name (p : string → bool) names v rest :
  List.filter (fun f => Py.endswith f ".mp4" && p f) names = v :: rest →
  String.eqb v "" = false.
Proof.
  intros Hfilter.
  assert (In v (List.filter (fun f => Py.endswith f ".mp4" && p f) names)) as Hin
    by (rewrite Hfilter; by left).
  apply filter_In in Hin as [_ Hv]. apply andb_prop in Hv as [Hv _].
  by destruct v.
Qed.

(** The [try] in video mode when every call returns and the first
    matching entry is a regular file that can be removed. *)
Lemma video_try E m w s v rest f :
  user_sessions w !! chat_id m = Some s →
  Py.str_in "MP4" (text m) = true →
  (∀ c, outcome E c = None) →
  List.filter (fun f => Py.endswith f ".mp4" && Py.str_in (shortcode s) f)
    (map_to_list (downloaded E (shortcode s) (downloads w))).*1 = v :: rest →
  downloaded E (shortcode s) (downloads w) !! v = Some f →
  isfile f = true → removable f = true →
  process_download_try E m w =
  (Ok tt,
   {| user_sessions := delete (chat_id m) (user_sessions w);
      downloads := delete v (downloaded E (shortcode s) (downloads w));
      logged := logged w;
      calls := calls w ++
        [send_chat_action (chat_id m) "typing";
         Post_from_shortcode (shortcode s);
         download_post (shortcode s) DOWNLOAD_DIR;
         send_chat_action (chat_id m) "upload_video";
         send_video (chat_id m) (os_path_join DOWNLOAD_DIR v)
           "Here's your Instagram Reel 📹" true;
         send_message (chat_id m) "✅ Download complete!" None
           (ReplyKeyboardMarkup false true ["📥 Download Another"])] |}).
Proof.
  intros Hs Hmp4 Hquiet Hfilter Hv Hfile Hrem.
  pose proof (matching_video_name _ _ _ _ Hfilter) as Hname.
  unfold process_download_try, process_download_deliver, process_download_finish.
  cbv zeta. rewrite Hmp4. change (String.eqb "video" "video") with true. cbv iota.
  unfold loader_download_post, os_listdir, with_open_rb, os_remove, os_unlink.
  unfold bind, invoke, get_sessions, set_sessions, get_downloads, set_downloads,
    lift, ret, raise.
  unfold getitem_sessions.
  repeat (rewrite ?Hquiet, ?Hs, ?Hfilter, ?stat_join, ?entry_of_join,
            ?Hv, ?Hfile, ?Hrem;
          cbn [next found negb user_sessions downloads logged calls];
          rewrite ?Hname).
  by rewrite <- !app_assoc.
Qed.

(** X15.  The video path: when the session is there, the reply
    contains [MP4], every call returns and the first entry the client
    left whose name ends in [.mp4] and contains the identifier is a
    regular file that can be removed, the handler returns after exactly
    these calls: typing indicator, resolution of the post, download,
    upload indicator, the video itself, and the completion message;
    the session and the video file are gone. *)
Theorem video_is_delivered E m w s v rest f :
  user_sessions w !! chat_id m = Some s →
  Py.str_in "MP4" (text m) = true →
  (∀ c, outcome E c = None) →
  List.filter (fun f => Py.endswith f ".mp4" && Py.str_in (shortcode s) f)
    (map_to_list (downloaded E (shortcode s) (downloads w))).*1 = v :: rest →
  downloaded E (shortcode s) (downloads w) !! v = Some f →
  isfile f = true → removable f = true →
  ∃ w', process_download E m w = (Ok tt, w')
    ∧ user_sessions w' !! chat_id m = None
    ∧ downloads w' !! v = None
    ∧ calls w' = (calls w ++
        [send_chat_action (chat_id m) "typing";
         Post_from_shortcode (shortcode s);
         download_post (shortcode s) DOWNLOAD_DIR;
         send_chat_action (chat_id m) "upload_video";
         send_video (chat_id m) (os_path_join DOWNLOAD_DIR v)
           "Here's your Instagram Reel 📹" true;
         send_message (chat_id m) "✅ Download complete!" None
           (ReplyKeyboardMarkup false true ["📥 Download Another"])])%list.
Proof.
  intros Hs Hmp4 Hquiet Hfilter Hv Hfile Hrem.
  rewrite (process_download_attempt E m w) by (by apply elem_of_dom_2 in Hs).
  unfold try_finally, try_except.
  rewrite (video_try E m w s v rest f Hs Hmp4 Hquiet Hfilter Hv Hfile Hrem).
  set (w1 := {| user_sessions := _ |}).
  destruct (cleanup_directory_run E w1) as (w' & -> & Hsess & Hcalls & _ & Hdir).
  exists w'. split; [done|]. rewrite Hsess, Hcalls, Hdir. subst w1.
  cbn [user_sessions downloads logged calls].
  rewrite !lookup_delete_eq. done.
Qed.

Lemma video_is_delivered_witness :
  let s := {| url := "https://instagram.com/reel/reel/ABC123"; shortcode := "ABC123" |} in
  user_sessions Scenario.pending !! chat_id Scenario.mp4 = Some s
  ∧ Py.str_in "MP4" (text Scenario.mp4) = true
  ∧ (∀ c, outcome Scenario.all_well c = None)
  ∧ (∃ w', process_download Scenario.all_well Scenario.mp4 Scenario.pending = (Ok tt, w')
       ∧ user_sessions w' !! 7 = None
       ∧ downloads w' !! "ABC123.mp4" = None).
Proof.
  intros s.
  assert (user_sessions Scenario.pending !! chat_id Scenario.mp4 = Some s) as Hs
    by (vm_compute; reflexivity).
  assert (Py.str_in "MP4" (text Scenario.mp4) = true) as Hmp4 by (vm_compute; reflexivity).
  assert (∀ c, outcome Scenario.all_well c = None) as Hquiet by reflexivity.
  assert (List.filter (fun f => Py.endswith f ".mp4" && Py.str_in (shortcode s) f)
            (map_to_list (downloaded Scenario.all_well (shortcode s)
                            (downloads Scenario.pending))).*1 = ["ABC123.mp4"])
    as Hfilter by (vm_compute; reflexivity).
  assert (downloaded Scenario.all_well (shortcode s) (downloads Scenario.pending)
            !! "ABC123.mp4" = Some Scenario.plain) as Hv by (vm_compute; reflexivity).
  split; [exact Hs|]. split; [exact Hmp4|]. split; [exact Hquiet|].
  destruct (video_is_delivered Scenario.all_well Scenario.mp4 Scenario.pending
              s "ABC123.mp4" [] Scenario.plain Hs Hmp4 Hquiet Hfilter Hv eq_refl eq_refl)
    as (w' & Hrun & Hsess & Hdir & _).
  exists w'. split; [exact Hrun|]. split; [exact Hsess|exact Hdir].
Defined.

(** The name of the audio file is not that of a video. *)
Lemma audio_name_is_no_video code : Py.endswith (code ++ ".mp3") ".mp4" = false.
Proof.
  induction code as [|c r IH]; [done|].
  change (String c r ++ ".mp3") with (String c (r ++ ".mp3")).
  cbn [Py.endswith]. rewrite IH, orb_false_r.
  apply String.eqb_neq. intros [= _ Hr].
  destruct r as [|a [|b [|d r]]]; try discriminate.
  injection Hr as _ _ _ Hr. by destruct r.
Qed.

(** The arguments of the conversion (lines 160 to 165). *)
Lemma audio_try E m w s v rest fv fa stderr d2 :
  user_sessions w !! chat_id m = Some s →
  Py.str_in "MP4" (text m) = false →
  (∀ c, outcome E c = None) →
  List.filter (fun f => Py.endswith f ".mp4" && Py.str_in (shortcode s) f)
    (map_to_list (downloaded E (shortcode s) (downloads w))).*1 = v :: rest →
  ffmpeg E ["ffmpeg"; "-i"; os_path_join DOWNLOAD_DIR v; "-q:a"; "0"; "-map"; "a";
            os_path_join DOWNLOAD_DIR (shortcode s ++ ".mp3")]
           (downloaded E (shortcode s) (downloads w)) = Exited 0 stderr d2 →
  d2 !! (shortcode s ++ ".mp3") = Some fa → isfile fa = true → removable fa = true →
  d2 !! v = Some fv → isfile fv = true → removable fv = true →
  process_download_try E m w =
  (Ok tt,
   {| user_sessions := delete (chat_id m) (user_sessions w);
      downloads := delete v (delete (shortcode s ++ ".mp3") d2);
      logged := logged w;
      calls := calls w ++
        [send_chat_action (chat_id m) "typing";
         Post_from_shortcode (shortcode s);
         download_post (shortcode s) DOWNLOAD_DIR;
         subprocess_run
           ["ffmpeg"; "-i"; os_path_join DOWNLOAD_DIR v; "-q:a"; "0"; "-map"; "a";
            os_path_join DOWNLOAD_DIR (shortcode s ++ ".mp3")];
         send_chat_action (chat_id m) "upload_audio";
         send_audio (chat_id m) (os_path_join DOWNLOAD_DIR (shortcode s ++ ".mp3"))
           "Instagram Reel Audio";
         send_message (chat_id m) "✅ Download complete!" None
           (ReplyKeyboardMarkup false true ["📥 Download Another"])] |}).
Proof.
  intros Hs Hmp4 Hquiet Hfilter Hff Ha Hafile Harem Hv Hvfile Hvrem.
  pose proof (matching_video_name _ _ _ _ Hfilter) as Hname.
  assert (shortcode s ++ ".mp3" ≠ v) as Hne.
  { intros <-.
    assert (In (shortcode s ++ ".mp3")
              (List.filter (fun f => Py.endswith f ".mp4" && Py.str_in (shortcode s) f)
                 (map_to_list (downloaded E (shortcode s) (downloads w))).*1)) as Hin
      by (rewrite Hfilter; by left).
    apply filter_In in Hin as [_ Hin]. by rewrite audio_name_is_no_video in Hin. }
  assert (delete (shortcode s ++ ".mp3") d2 !! v = Some fv) as Hv'
    by (by rewrite lookup_delete_ne).
  unfold process_download_try, process_download_deliver, process_download_finish.
  cbv zeta. rewrite Hmp4. change (String.eqb "audio" "video") with false. cbv iota.
  unfold loader_download_post, os_listdir, with_open_rb, os_remove, os_unlink,
    subprocess_run_check.
  unfold bind, invoke, record, get_sessions, set_sessions, get_downloads,
    set_downloads, lift, ret, raise.
  unfold getitem_sessions.
  repeat (rewrite ?Hquiet, ?Hs, ?Hfilter, ?Hff, ?stat_join, ?entry_of_join,
            ?Ha, ?Hafile, ?Harem, ?Hv', ?Hvfile, ?Hvrem;
          cbn [Z.eqb next found negb user_sessions downloads logged calls];
          rewrite ?Hname).
  by rewrite <- !app_assoc.
Qed.

(** X16.  The audio path: when the reply does not contain [MP4], every
    call returns, the conversion exits with status 0 and both the
    video and the audio file it wrote are regular files that can be
    removed, the handler returns after exactly these calls: typing
    indicator, resolution of the post, download, [ffmpeg] from the
    video to [<identifier>.mp3], upload indicator, the audio file, and
    the completion message; the session and both files are gone. *)
Theorem audio_is_delivered E m w s v rest fv fa stderr d2 :
  user_sessions w !! chat_id m = Some s →
  Py.str_in "MP4" (text m) = false →
  (∀ c, outcome E c = None) →
  List.filter (fun f => Py.endswith f ".mp4" && Py.str_in (shortcode s) f)
    (map_to_list (downloaded E (shortcode s) (downloads w))).*1 = v :: rest →
  ffmpeg E ["ffmpeg"; "-i"; os_path_join DOWNLOAD_DIR v; "-q:a"; "0"; "-map"; "a";
            os_path_join DOWNLOAD_DIR (shortcode s ++ ".mp3")]
           (downloaded E (shortcode s) (downloads w)) = Exited 0 stderr d2 →
  d2 !! (shortcode s ++ ".mp3") = Some fa → isfile fa = true → removable fa = true →
  d2 !! v = Some fv → isfile fv = true → removable fv = true →
  ∃ w', process_download E m w = (Ok tt, w')
    ∧ user_sessions w' !! chat_id m = None
    ∧ downloads w' !! v = None
    ∧ downloads w' !! (shortcode s ++ ".mp3") = None
    ∧ calls w' = (calls w ++
        [send_chat_action (chat_id m) "typing";
         Post_from_shortcode (shortcode s);
         download_post (shortcode s) DOWNLOAD_DIR;
         subprocess_run
           ["ffmpeg"; "-i"; os_path_join DOWNLOAD_DIR v; "-q:a"; "0"; "-map"; "a";
            os_path_join DOWNLOAD_DIR (shortcode s ++ ".mp3")];
         send_chat_action (chat_id m) "upload_audio";
         send_audio (chat_id m) (os_path_join DOWNLOAD_DIR (shortcode s ++ ".mp3"))
           "Instagram Reel Audio";
         send_message (chat_id m) "✅ Download complete!" None
           (ReplyKeyboardMarkup false true ["📥 Download Another"])])%list.
Proof.
  intros Hs Hmp4 Hquiet Hfilter Hff Ha Hafile Harem Hv Hvfile Hvrem.
  rewrite (process_download_attempt E m w) by (by apply elem_of_dom_2 in Hs).
  unfold try_finally, try_except.
  rewrite (audio_try E m w s v rest fv fa stderr d2
             Hs Hmp4 Hquiet Hfilter Hff Ha Hafile Harem Hv Hvfile Hvrem).
  set (w1 := {| user_sessions := _ |}).
  destruct (cleanup_directory_run E w1) as (w' & -> & Hsess & Hcalls & _ & Hdir).
  exists w'. split; [done|]. rewrite Hsess, Hcalls, !Hdir. subst w1.
  cbn [user_sessions downloads logged calls].
  rewrite !lookup_delete_eq. cbn [deletable].
  destruct (decide (v = shortcode s ++ ".mp3")) as [->|Hne].
  - by rewrite !lookup_delete_eq.
  - rewrite lookup_delete_ne, lookup_delete_eq by done. done.
Qed.

Lemma audio_is_delivered_witness :
  let s := {| url := "https://instagram.com/reel/reel/ABC123"; shortcode := "ABC123" |} in
  user_sessions Scenario.pending !! chat_id Scenario.mp3 = Some s
  ∧ Py.str_in "MP4" (text Scenario.mp3) = false
  ∧ (∀ c, outcome Scenario.all_well c = None)
  ∧ (∃ w', process_download Scenario.all_well Scenario.mp3 Scenario.pending = (Ok tt, w')
       ∧ user_sessions w' !! 7 = None
       ∧ downloads w' !! "ABC123.mp4" = None
       ∧ downloads w' !! "ABC123.mp3" = None).
Proof.
  intros s.
  set (d2 := <["ABC123.mp3" := Scenario.plain]>
               (<["ABC123.mp4" := Scenario.plain]> (∅ : gmap string file))).
  assert (user_sessions Scenario.pending !! chat_id Scenario.mp3 = Some s) as Hs
    by (vm_compute; reflexivity).
  assert (Py.str_in "MP4" (text Scenario.mp3) = false) as Hmp4 by (vm_compute; reflexivity).
  assert (∀ c, outcome Scenario.all_well c = None) as Hquiet by reflexivity.
  assert (List.filter (fun f => Py.endswith f ".mp4" && Py.str_in (shortcode s) f)
            (map_to_list (downloaded Scenario.all_well (shortcode s)
                            (downloads Scenario.pending))).*1 = ["ABC123.mp4"])
    as Hfilter by (vm_compute; reflexivity).
  assert (ffmpeg Scenario.all_well
            ["ffmpeg"; "-i"; os_path_join DOWNLOAD_DIR "ABC123.mp4"; "-q:a"; "0";
             "-map"; "a"; os_path_join DOWNLOAD_DIR (shortcode s ++ ".mp3")]
            (downloaded Scenario.all_well (shortcode s) (downloads Scenario.pending))
          = Exited 0 "" d2) as Hff by reflexivity.
  assert (d2 !! (shortcode s ++ ".mp3") = Some Scenario.plain) as Ha
    by (vm_compute; reflexivity).
  assert (d2 !! "ABC123.mp4" = Some Scenario.plain) as Hv by (vm_compute; reflexivity).
  split; [exact Hs|]. split; [exact Hmp4|]. split; [exact Hquiet|].
  destruct (audio_is_delivered Scenario.all_well Scenario.mp3 Scenario.pending
              s "ABC123.mp4" [] Scenario.plain Scenario.plain "" d2
              Hs Hmp4 Hquiet Hfilter Hff Ha eq_refl eq_refl Hv eq_refl eq_refl)
    as (w' & Hrun & Hsess & Hvid & Haud & _).
  exists w'. split; [exact Hrun|]. split; [exact Hsess|]. split; [exact Hvid|exact Haud].
Defined.

(** ** The cleanup, again *)

(** X18.  A second cleanup finds nothing more to remove: it returns
    and leaves the directory as the first one left it. *)
Theorem cleanup_is_idempotent E w :
  let once := cleanup_directory E w in
  let twice := cleanup_directory E once.2 in
  once.1 = Ok tt ∧ twice.1 = Ok tt ∧ downloads twice.2 = downloads once.2.
Proof.
  intros once twice. subst once twice.
  destruct (cleanup_directory_run E w) as (w1 & -> & _ & _ & _ & Hd1).
  cbn [fst snd].
  destruct (cleanup_directory_run E w1) as (w2 & -> & _ & _ & _ & Hd2).
  cbn [fst snd]. split; [done|]. split; [done|].
  apply map_eq. intros k. rewrite Hd2, Hd1.
  destruct (downloads w !! k) as [[[] []]|] eqn:Hk; cbn [deletable isfile removable andb];
    rewrite ?Hk; reflexivity.
Qed.

(** ** Witnesses of the guard, of the rejected links and of the
    reported conversion failure *)

Lemma host_guard_witness :
  let p := {| urllib.scheme := "https"; urllib.netloc := "example.com";
              urllib.path := "/someone/reel/ABC123"; urllib.params := "";
              urllib.query := ""; urllib.fragment := "" |} in
  urllib.urlparse "https://example.com/someone/reel/ABC123" = Ok p
  ∧ Py.endswith (urllib.netloc p) "instagram.com" = false
  ∧ extract_shortcode "https://example.com/someone/reel/ABC123"
    = Raise (ValueError "Invalid Instagram URL").
Proof.
  intros p.
  assert (urllib.urlparse "https://example.com/someone/reel/ABC123" = Ok p) as Hp
    by (vm_compute; reflexivity).
  assert (Py.endswith (urllib.netloc p) "instagram.com" = false) as Hend
    by (vm_compute; reflexivity).
  split; [exact Hp|]. split; [exact Hend|].
  exact (host_guard "https://example.com/someone/reel/ABC123" p Hp Hend).
Defined.

Lemma keyworded_links_are_rejected_witness :
  let p := {| urllib.scheme := "https"; urllib.netloc := "www.instagram.com";
              urllib.path := "/p/ABC123"; urllib.params := "";
              urllib.query := ""; urllib.fragment := "" |} in
  urllib.urlparse "https://www.instagram.com/p/ABC123" = Ok p
  ∧ ∃ e, extract_shortcode "https://www.instagram.com/p/ABC123" = Raise e.
Proof.
  intros p.
  assert (urllib.urlparse "https://www.instagram.com/p/ABC123" = Ok p) as Hp
    by (vm_compute; reflexivity).
  split; [exact Hp|].
  refine (keyworded_links_are_rejected "https://www.instagram.com/p/ABC123" p "ABC123"
            Hp (or_intror eq_refl) eq_refl _).
  discriminate.
Defined.

Lemma conversion_failure_reported_witness :
  let E := Scenario.conversion_fails "Output file is empty" in
  (chat_id Scenario.mp3 ∈ dom (user_sessions Scenario.pending))
  ∧ Py.utf8_valid "Output file is empty" = true
  ∧ (∃ w1,
       calls (process_download E Scenario.mp3 Scenario.pending).2
       = (calls w1 ++ [reply_to Scenario.mp3 "❌ Audio conversion failed"])%list)
  ∧ "FFmpeg error: Output file is empty"
    ∈ logged (process_download E Scenario.mp3 Scenario.pending).2.
Proof.
  intros E.
  assert (chat_id Scenario.mp3 ∈ dom (user_sessions Scenario.pending)) as H.
  { simpl. rewrite dom_singleton_L. by apply elem_of_singleton. }
  assert (Py.utf8_valid "Output file is empty" = true) as Hutf by reflexivity.
  assert (∃ w1 t, process_download_try E Scenario.mp3 Scenario.pending
                  = (Raise (CalledProcessError 1 "Output file is empty" t), w1)) as Htry.
  { eexists. eexists. vm_compute. reflexivity. }
  split; [exact H|]. split; [exact Hutf|].
  destruct Htry as (w1 & t & Htry).
  destruct (conversion_failure_reported E Scenario.mp3 Scenario.pending w1 1
              "Output file is empty" t H Htry Hutf) as [Hcalls Hlog].
  split; [by exists w1|exact Hlog].
Defined.
